(** * Khoj Obsidian plugin: settings tab and i18n module

    A shallow embedding of [src/interface/obsidian/src/i18n.ts] and of the
    state-changing handlers of [src/interface/obsidian/src/settings.ts],
    together with the properties their specification states about them.

    JavaScript values are modelled as far as the code can observe them:
    strings as [string], integral numbers as [Z], arrays as [list],
    object literals used as dictionaries as [gmap string _] (their own
    properties) below [Object.prototype], [null]/[undefined] as [option]
    or as explicit constructors, thrown exceptions as the [Throw]
    completion of a small state-and-exception monad. *)

From Stdlib Require Import ZArith Lia Ascii String.
From stdpp Require Import base option list strings gmap pretty sorting.

Local Open Scope string_scope.
Local Open Scope Z_scope.

(** ** JavaScript completions and the state-and-exception monad *)

Module JS.

(** What a [throw] carries. [TypeError] is the exception the runtime
    itself raises; [Failure] stands for whatever a collaborator throws. *)
Inductive Exn :=
| TypeError (msg : string)
| Failure (msg : string).

(** The way an evaluation ends: normally with a value, or abruptly. *)
Inductive Completion (A : Type) :=
| Return (a : A)
| Throw (e : Exn).
Arguments Return {A} a.
Arguments Throw {A} e.

Definition cbind {A B} (c : Completion A) (k : A → Completion B) : Completion B :=
  match c with
  | Return a => k a
  | Throw e => Throw e
  end.

(** A computation over a mutable store [S]. The store survives a throw:
    what was written before the exception stays written. *)
Definition M (S A : Type) : Type := S → Completion A * S.

Definition ret {S A} (a : A) : M S A := λ s, (Return a, s).

Definition bind {S A B} (m : M S A) (k : A → M S B) : M S B :=
  λ s, match m s with
       | (Return a, s') => k a s'
       | (Throw e, s') => (Throw e, s')
       end.

Definition throw {S A} (e : Exn) : M S A := λ s, (Throw e, s).
Definition get {S} : M S S := λ s, (Return s, s).
Definition gets {S A} (f : S → A) : M S A := λ s, (Return (f s), s).
Definition modify {S} (f : S → S) : M S unit := λ s, (Return tt, f s).
Definition lift {S A} (c : Completion A) : M S A := λ s, (c, s).

(** [try { body } finally { fin }]: [fin] runs on the store [body] left,
    whether [body] returned or threw; the completion of [body] is the
    completion of the whole statement unless [fin] itself throws. *)
Definition try_finally {S A} (body : M S A) (fin : M S unit) : M S A :=
  λ s, match body s with
       | (r, s1) =>
           match fin s1 with
           | (Return _, s2) => (r, s2)
           | (Throw e, s2) => (Throw e, s2)
           end
       end.

(** [for (const x of xs) body(x)] *)
Fixpoint for_each {S A} (xs : list A) (body : A → M S unit) : M S unit :=
  match xs with
  | [] => ret tt
  | x :: rest => bind (body x) (λ _, for_each rest body)
  end.

End JS.

Export JS.

#[global] Instance completion_ret : MRet Completion := @Return.
#[global] Instance completion_bind : MBind Completion := λ A B k c, JS.cbind c k.
#[global] Instance js_ret {S} : MRet (JS.M S) := @JS.ret S.
#[global] Instance js_bind {S} : MBind (JS.M S) := λ A B k m, JS.bind m k.

(** ** Strings and numbers as the code uses them *)

Module Str.

(** [s.split(sep)] for a one-character separator: never empty, an empty
    segment for every separator at an end or next to another one. *)
Fixpoint split (sep : ascii) (s : string) : list string :=
  match s with
  | EmptyString => [""]
  | String c s' =>
      if Ascii.eqb c sep then "" :: split sep s'
      else match split sep s' with
           | [] => [String c ""]
           | seg :: segs => String c seg :: segs
           end
  end.

(** [s.startsWith(p)] *)
Definition startsWith (p s : string) : bool := String.prefix p s.

(** [s.replace(pat, rep)] with a string pattern: the first occurrence
    only. The replacement strings of this program hold no [$]. *)
Fixpoint replace (pat rep s : string) : string :=
  if String.prefix pat s then rep +:+ String.substring (String.length pat) (String.length s - String.length pat)%nat s
  else match s with
       | EmptyString => EmptyString
       | String c s' => String c (replace pat rep s')
       end.

(** [n.toString()] of an integral number: decimal digits, a leading
    minus sign for a negative one. *)
Definition number_toString (n : Z) : string := pretty n.

(** [a.indexOf(x)] on an array of strings, [-1] when absent. *)
Fixpoint indexOf (x : string) (a : list string) : Z :=
  match a with
  | [] => -1
  | y :: rest =>
      if bool_decide (y = x) then 0
      else let i := indexOf x rest in if bool_decide (i = -1) then -1 else i + 1
  end.

End Str.

(** ** i18n.ts *)

Module I18n.

(** [type LanguageCode = 'en' | 'zh-CN' | 'zh'] *)
Inductive LanguageCode := en | zh_CN | zh.

#[global] Instance LanguageCode_eq_dec : EqDecision LanguageCode.
Proof. solve_decision. Defined.

Definition code_string (l : LanguageCode) : string :=
  match l with en => "en" | zh_CN => "zh-CN" | zh => "zh" end.

(** [type TranslationDict = { [key: string]: string | TranslationDict }]:
    the own properties of an object literal. *)
#[warnings="-register-all"]
Inductive TransValue :=
| TStr (s : string)
| TDict (d : gmap string TransValue).

Abbreviation TranslationDict := (gmap string TransValue).

(** *** The part of the object model the lookup loop can reach

    A dictionary is an ordinary object, so its prototype is
    [Object.prototype], whose own prototype is [null]. [typeof] answers
    ['object'] for all three. *)
Inductive JsObject :=
| ODict (d : TranslationDict)
| OObjectPrototype
| ONull.

Inductive JsValue :=
| JString (s : string)
| JObj (o : JsObject)
| JFunction
| JUndefined.

Definition of_trans (v : TransValue) : JsValue :=
  match v with
  | TStr s => JString s
  | TDict d => JObj (ODict d)
  end.

Inductive TypeTag := tag_string | tag_object | tag_function | tag_undefined.

#[global] Instance TypeTag_eq_dec : EqDecision TypeTag.
Proof. solve_decision. Defined.

Definition typeof (v : JsValue) : TypeTag :=
  match v with
  | JString _ => tag_string
  | JObj _ => tag_object
  | JFunction => tag_function
  | JUndefined => tag_undefined
  end.

(** The methods every object inherits from [Object.prototype]; next to
    them stands the accessor [__proto__]. *)
Definition object_prototype_methods : list string :=
  [ "constructor"; "hasOwnProperty"; "isPrototypeOf"; "propertyIsEnumerable";
    "toLocaleString"; "toString"; "valueOf";
    "__defineGetter__"; "__defineSetter__"; "__lookupGetter__"; "__lookupSetter__" ].

Definition object_prototype_has (k : string) : bool :=
  bool_decide (k = "__proto__") || bool_decide (k ∈ object_prototype_methods).

(** [Object.prototype[k]] read on behalf of a receiver whose prototype
    is [proto]: the [__proto__] getter answers the receiver's prototype. *)
Definition object_prototype_get (k : string) (proto : JsValue) : JsValue :=
  if bool_decide (k = "__proto__") then proto
  else if bool_decide (k ∈ object_prototype_methods) then JFunction
  else JUndefined.

(** [k in o]: own properties first, then the prototype chain; a
    [TypeError] when the right operand is [null]. *)
Definition js_in (k : string) (o : JsObject) : Completion bool :=
  match o with
  | ODict d => Return (bool_decide (is_Some (d !! k)) || object_prototype_has k)
  | OObjectPrototype => Return (object_prototype_has k)
  | ONull => Throw (TypeError "Cannot use 'in' operator to search for a key in null")
  end.

(** [o[k]] *)
Definition js_get (k : string) (o : JsObject) : Completion JsValue :=
  match o with
  | ODict d =>
      Return (match d !! k with
              | Some v => of_trans v
              | None => object_prototype_get k (JObj OObjectPrototype)
              end)
  | OObjectPrototype => Return (object_prototype_get k (JObj ONull))
  | ONull => Throw (TypeError "Cannot read properties of null")
  end.

(** *** Module state *)

Record State := mkState {
  currentLanguage : LanguageCode;   (* let currentLanguage: LanguageCode = 'en' *)
  console : list string             (* lines written by console.log *)
}.

Definition initial : State := {| currentLanguage := en; console := [] |}.

Definition set_currentLanguage (l : LanguageCode) (st : State) : State :=
  {| currentLanguage := l; console := console st |}.

Definition console_log (line : string) (st : State) : State :=
  {| currentLanguage := currentLanguage st; console := console st ++ [line] |}.

Section Registry.

(** [import { zhCN } from './locales/zh-CN']: the dictionary itself is
    localisation content. *)
Variable zhCN : TranslationDict.

(** [export const translations: Record<LanguageCode, TranslationDict>] *)
Definition translations : list (LanguageCode * TranslationDict) :=
  [ (en, ∅);        (* English uses keys as fallback *)
    (zh_CN, zhCN);
    (zh, zhCN) ].   (* Alias for zh-CN *)

(** [translations[language]] *)
Definition translations_at (language : LanguageCode) : option TranslationDict :=
  snd <$> List.find (λ entry, bool_decide (entry.1 = language)) translations.

(** [initI18n], with the host's [getLocale()] as argument. *)
Definition initI18n (locale : string) : M State unit :=
  (if Str.startsWith "zh-CN" locale || Str.startsWith "zh-Hans" locale
   then JS.modify (set_currentLanguage zh_CN)
   else if Str.startsWith "zh" locale
   then JS.modify (set_currentLanguage zh)
   else JS.modify (set_currentLanguage en));;
  language ← JS.gets currentLanguage;
  JS.modify (console_log ("Khoj: i18n initialized with language: " +:+ code_string language)).

Definition getCurrentLanguage : M State LanguageCode := JS.gets currentLanguage.

Definition setLanguage (lang : LanguageCode) : M State unit :=
  match translations_at lang with
  | Some _ =>
      JS.modify (set_currentLanguage lang);;
      JS.modify (console_log ("Khoj: Language set to: " +:+ code_string lang))
  | None => mret tt
  end.

(** [lang || currentLanguage] *)
Definition effective_language (lang : option LanguageCode) : M State LanguageCode :=
  match lang with
  | Some l => mret l
  | None => JS.gets currentLanguage
  end.

(** The loop of [t] and the [return] after it:
<<
  for (const k of keys) {
      if (typeof value === 'object' && k in value) { value = value[k]; }
      else { return key; }
  }
  return typeof value === 'string' ? value : key;
>> *)
Fixpoint t_loop (key : string) (value : JsValue) (keys : list string) : Completion string :=
  match keys with
  | [] => Return (match value with JString s => s | _ => key end)
  | k :: rest =>
      match value with
      | JObj o =>
          found ← js_in k o;
          if (found : bool) then value' ← js_get k o; t_loop key value' rest
          else Return key
      | _ => Return key
      end
  end.

Definition t (key : string) (lang : option LanguageCode) : M State string :=
  language ← effective_language lang;
  if bool_decide (language = en) then mret key
  else match translations_at language with
       | None => mret key
       | Some langTranslations =>
           JS.lift (t_loop key (JObj (ODict langTranslations)) (Str.split "." key))
       end.

(** The loop of [hasTranslation] and the [return] after it. *)
Fixpoint hasTranslation_loop (value : JsValue) (keys : list string) : Completion bool :=
  match keys with
  | [] => Return (bool_decide (typeof value = tag_string))
  | k :: rest =>
      match value with
      | JObj o =>
          found ← js_in k o;
          if (found : bool) then value' ← js_get k o; hasTranslation_loop value' rest
          else Return false
      | _ => Return false
      end
  end.

Definition hasTranslation (key : string) (lang : option LanguageCode) : M State bool :=
  language ← effective_language lang;
  match translations_at language with
  | None => mret false
  | Some langTranslations =>
      JS.lift (hasTranslation_loop (JObj (ODict langTranslations)) (Str.split "." key))
  end.

(** *** The walk as the specification words it

    Descend the dictionary one segment at a time; a segment that is
    absent, or a node that is not a dictionary, is a miss. *)
Fixpoint walk (node : TransValue) (segments : list string) : option TransValue :=
  match segments with
  | [] => Some node
  | k :: rest =>
      match node with
      | TDict d => v ← d !! k; walk v rest
      | TStr _ => None
      end
  end.

(** The language a call with override [lang] works under. *)
Definition language_of (lang : option LanguageCode) (st : State) : LanguageCode :=
  match lang with
  | Some l => l
  | None => currentLanguage st
  end.

(** The dictionary [hasTranslation] and [t] select for a call. *)
Definition selected_dict (lang : option LanguageCode) (st : State) : TranslationDict :=
  default ∅ (translations_at (language_of lang st)).

Definition walk_key (key : string) (lang : option LanguageCode) (st : State) : option TransValue :=
  walk (TDict (selected_dict lang st)) (Str.split "." key).

End Registry.

(** The values a lookup reaches once it has left the dictionaries: what
    [Object.prototype] hands out, and [null] above it. *)
Definition inherited (v : JsValue) : Prop :=
  match v with
  | JString _ | JObj (ODict _) => False
  | _ => True
  end.

(** The values a lookup holds as long as no segment was [__proto__]. *)
Definition below_object_prototype (v : JsValue) : Prop :=
  match v with
  | JObj OObjectPrototype | JObj ONull => False
  | _ => True
  end.

End I18n.


(** ** settings.ts *)

Module Settings.

(** *** Settings data *)

Record UserInfo := mkUserInfo {
  username : option string;
  photo : option string;
  is_active : option bool;
  has_documents : option bool;
  email : option string
}.

Record SyncFileTypes := mkSyncFileTypes {
  markdown : bool;
  images : bool;
  pdf : bool
}.

Record ModelOption := mkModelOption {
  id : string;
  name : string
}.

(** A numeric field of a server answer that the code tests against both
    [undefined] and [null]. *)
Inductive OptNumber :=
| Undefined
| Null
| Num (n : Z).

Record ServerUserConfig := mkServerUserConfig {
  selected_chat_model_config : OptNumber   (* This is the ID from the server *)
}.

Inductive FileAccessMode := access_none | access_read | access_write.

(** [Map<TFile, number>], a file standing as its path. *)
Definition LastSync := list (string * Z).

Record KhojSetting := mkKhojSetting {
  resultsCount : Z;
  khojUrl : string;
  khojApiKey : string;
  connectedToBackend : bool;
  autoConfigure : bool;
  lastSync : LastSync;
  syncFileType : SyncFileTypes;
  userInfo : option UserInfo;
  syncFolders : list string;
  excludeFolders : list string;
  syncInterval : Z;
  autoVoiceResponse : bool;
  fileAccessMode : FileAccessMode;
  selectedChatModelId : option string;   (* Mirrors server's selected_chat_model_config *)
  availableChatModels : list ModelOption
}.

Definition DEFAULT_SETTINGS : KhojSetting := {|
  resultsCount := 15;
  khojUrl := "https://app.khoj.dev";
  khojApiKey := "";
  connectedToBackend := false;
  autoConfigure := true;
  lastSync := [];
  syncFileType := {| markdown := true; images := true; pdf := true |};
  userInfo := None;
  syncFolders := [];
  excludeFolders := [];
  syncInterval := 60;
  autoVoiceResponse := true;
  fileAccessMode := access_read;
  selectedChatModelId := None;   (* Will be populated from server *)
  availableChatModels := []
|}.

Definition set_resultsCount (v : Z) (s : KhojSetting) : KhojSetting :=
  {| resultsCount := v; khojUrl := khojUrl s; khojApiKey := khojApiKey s;
     connectedToBackend := connectedToBackend s; autoConfigure := autoConfigure s;
     lastSync := lastSync s; syncFileType := syncFileType s; userInfo := userInfo s;
     syncFolders := syncFolders s; excludeFolders := excludeFolders s;
     syncInterval := syncInterval s; autoVoiceResponse := autoVoiceResponse s;
     fileAccessMode := fileAccessMode s; selectedChatModelId := selectedChatModelId s;
     availableChatModels := availableChatModels s |}.

Definition set_khojUrl (v : string) (s : KhojSetting) : KhojSetting :=
  {| resultsCount := resultsCount s; khojUrl := v; khojApiKey := khojApiKey s;
     connectedToBackend := connectedToBackend s; autoConfigure := autoConfigure s;
     lastSync := lastSync s; syncFileType := syncFileType s; userInfo := userInfo s;
     syncFolders := syncFolders s; excludeFolders := excludeFolders s;
     syncInterval := syncInterval s; autoVoiceResponse := autoVoiceResponse s;
     fileAccessMode := fileAccessMode s; selectedChatModelId := selectedChatModelId s;
     availableChatModels := availableChatModels s |}.

Definition set_khojApiKey (v : string) (s : KhojSetting) : KhojSetting :=
  {| resultsCount := resultsCount s; khojUrl := khojUrl s; khojApiKey := v;
     connectedToBackend := connectedToBackend s; autoConfigure := autoConfigure s;
     lastSync := lastSync s; syncFileType := syncFileType s; userInfo := userInfo s;
     syncFolders := syncFolders s; excludeFolders := excludeFolders s;
     syncInterval := syncInterval s; autoVoiceResponse := autoVoiceResponse s;
     fileAccessMode := fileAccessMode s; selectedChatModelId := selectedChatModelId s;
     availableChatModels := availableChatModels s |}.

Definition set_connectedToBackend (v : bool) (s : KhojSetting) : KhojSetting :=
  {| resultsCount := resultsCount s; khojUrl := khojUrl s; khojApiKey := khojApiKey s;
     connectedToBackend := v; autoConfigure := autoConfigure s; lastSync := lastSync s;
     syncFileType := syncFileType s; userInfo := userInfo s; syncFolders := syncFolders s;
     excludeFolders := excludeFolders s; syncInterval := syncInterval s;
     autoVoiceResponse := autoVoiceResponse s; fileAccessMode := fileAccessMode s;
     selectedChatModelId := selectedChatModelId s;
     availableChatModels := availableChatModels s |}.

Definition set_autoConfigure (v : bool) (s : KhojSetting) : KhojSetting :=
  {| resultsCount := resultsCount s; khojUrl := khojUrl s; khojApiKey := khojApiKey s;
     connectedToBackend := connectedToBackend s; autoConfigure := v;
     lastSync := lastSync s; syncFileType := syncFileType s; userInfo := userInfo s;
     syncFolders := syncFolders s; excludeFolders := excludeFolders s;
     syncInterval := syncInterval s; autoVoiceResponse := autoVoiceResponse s;
     fileAccessMode := fileAccessMode s; selectedChatModelId := selectedChatModelId s;
     availableChatModels := availableChatModels s |}.

Definition set_lastSync (v : LastSync) (s : KhojSetting) : KhojSetting :=
  {| resultsCount := resultsCount s; khojUrl := khojUrl s; khojApiKey := khojApiKey s;
     connectedToBackend := connectedToBackend s; autoConfigure := autoConfigure s;
     lastSync := v; syncFileType := syncFileType s; userInfo := userInfo s;
     syncFolders := syncFolders s; excludeFolders := excludeFolders s;
     syncInterval := syncInterval s; autoVoiceResponse := autoVoiceResponse s;
     fileAccessMode := fileAccessMode s; selectedChatModelId := selectedChatModelId s;
     availableChatModels := availableChatModels s |}.

Definition set_syncFileType (v : SyncFileTypes) (s : KhojSetting) : KhojSetting :=
  {| resultsCount := resultsCount s; khojUrl := khojUrl s; khojApiKey := khojApiKey s;
     connectedToBackend := connectedToBackend s; autoConfigure := autoConfigure s;
     lastSync := lastSync s; syncFileType := v; userInfo := userInfo s;
     syncFolders := syncFolders s; excludeFolders := excludeFolders s;
     syncInterval := syncInterval s; autoVoiceResponse := autoVoiceResponse s;
     fileAccessMode := fileAccessMode s; selectedChatModelId := selectedChatModelId s;
     availableChatModels := availableChatModels s |}.

Definition set_userInfo (v : option UserInfo) (s : KhojSetting) : KhojSetting :=
  {| resultsCount := resultsCount s; khojUrl := khojUrl s; khojApiKey := khojApiKey s;
     connectedToBackend := connectedToBackend s; autoConfigure := autoConfigure s;
     lastSync := lastSync s; syncFileType := syncFileType s; userInfo := v;
     syncFolders := syncFolders s; excludeFolders := excludeFolders s;
     syncInterval := syncInterval s; autoVoiceResponse := autoVoiceResponse s;
     fileAccessMode := fileAccessMode s; selectedChatModelId := selectedChatModelId s;
     availableChatModels := availableChatModels s |}.

Definition set_syncFolders (v : list string) (s : KhojSetting) : KhojSetting :=
  {| resultsCount := resultsCount s; khojUrl := khojUrl s; khojApiKey := khojApiKey s;
     connectedToBackend := connectedToBackend s; autoConfigure := autoConfigure s;
     lastSync := lastSync s; syncFileType := syncFileType s; userInfo := userInfo s;
     syncFolders := v; excludeFolders := excludeFolders s; syncInterval := syncInterval s;
     autoVoiceResponse := autoVoiceResponse s; fileAccessMode := fileAccessMode s;
     selectedChatModelId := selectedChatModelId s;
     availableChatModels := availableChatModels s |}.

Definition set_excludeFolders (v : list string) (s : KhojSetting) : KhojSetting :=
  {| resultsCount := resultsCount s; khojUrl := khojUrl s; khojApiKey := khojApiKey s;
     connectedToBackend := connectedToBackend s; autoConfigure := autoConfigure s;
     lastSync := lastSync s; syncFileType := syncFileType s; userInfo := userInfo s;
     syncFolders := syncFolders s; excludeFolders := v; syncInterval := syncInterval s;
     autoVoiceResponse := autoVoiceResponse s; fileAccessMode := fileAccessMode s;
     selectedChatModelId := selectedChatModelId s;
     availableChatModels := availableChatModels s |}.

Definition set_syncInterval (v : Z) (s : KhojSetting) : KhojSetting :=
  {| resultsCount := resultsCount s; khojUrl := khojUrl s; khojApiKey := khojApiKey s;
     connectedToBackend := connectedToBackend s; autoConfigure := autoConfigure s;
     lastSync := lastSync s; syncFileType := syncFileType s; userInfo := userInfo s;
     syncFolders := syncFolders s; excludeFolders := excludeFolders s; syncInterval := v;
     autoVoiceResponse := autoVoiceResponse s; fileAccessMode := fileAccessMode s;
     selectedChatModelId := selectedChatModelId s;
     availableChatModels := availableChatModels s |}.

Definition set_autoVoiceResponse (v : bool) (s : KhojSetting) : KhojSetting :=
  {| resultsCount := resultsCount s; khojUrl := khojUrl s; khojApiKey := khojApiKey s;
     connectedToBackend := connectedToBackend s; autoConfigure := autoConfigure s;
     lastSync := lastSync s; syncFileType := syncFileType s; userInfo := userInfo s;
     syncFolders := syncFolders s; excludeFolders := excludeFolders s;
     syncInterval := syncInterval s; autoVoiceResponse := v;
     fileAccessMode := fileAccessMode s; selectedChatModelId := selectedChatModelId s;
     availableChatModels := availableChatModels s |}.

Definition set_fileAccessMode (v : FileAccessMode) (s : KhojSetting) : KhojSetting :=
  {| resultsCount := resultsCount s; khojUrl := khojUrl s; khojApiKey := khojApiKey s;
     connectedToBackend := connectedToBackend s; autoConfigure := autoConfigure s;
     lastSync := lastSync s; syncFileType := syncFileType s; userInfo := userInfo s;
     syncFolders := syncFolders s; excludeFolders := excludeFolders s;
     syncInterval := syncInterval s; autoVoiceResponse := autoVoiceResponse s;
     fileAccessMode := v; selectedChatModelId := selectedChatModelId s;
     availableChatModels := availableChatModels s |}.

Definition set_selectedChatModelId (v : option string) (s : KhojSetting) : KhojSetting :=
  {| resultsCount := resultsCount s; khojUrl := khojUrl s; khojApiKey := khojApiKey s;
     connectedToBackend := connectedToBackend s; autoConfigure := autoConfigure s;
     lastSync := lastSync s; syncFileType := syncFileType s; userInfo := userInfo s;
     syncFolders := syncFolders s; excludeFolders := excludeFolders s;
     syncInterval := syncInterval s; autoVoiceResponse := autoVoiceResponse s;
     fileAccessMode := fileAccessMode s; selectedChatModelId := v;
     availableChatModels := availableChatModels s |}.

Definition set_availableChatModels (v : list ModelOption) (s : KhojSetting) : KhojSetting :=
  {| resultsCount := resultsCount s; khojUrl := khojUrl s; khojApiKey := khojApiKey s;
     connectedToBackend := connectedToBackend s; autoConfigure := autoConfigure s;
     lastSync := lastSync s; syncFileType := syncFileType s; userInfo := userInfo s;
     syncFolders := syncFolders s; excludeFolders := excludeFolders s;
     syncInterval := syncInterval s; autoVoiceResponse := autoVoiceResponse s;
     fileAccessMode := fileAccessMode s; selectedChatModelId := selectedChatModelId s;
     availableChatModels := v |}.

(** *** What the settings tab shows and holds *)

(** [HTMLProgressElement]: the attributes as last written. *)
Record ProgressElement := mkProgressElement {
  el_value : Z;
  el_max : Z;
  el_display : string      (* style.display *)
}.

Record TextElement := mkTextElement {
  textContent : string;
  text_display : string    (* style.display *)
}.

(** The storage estimate: a progress element whose [value] attribute
    may be removed, and its caption. *)
Record StorageDisplay := mkStorageDisplay {
  storage_value : option Z;
  storage_max : Z;
  storage_text : string
}.

(** The control [renderChatModelDropdown] leaves in the chat-model row. *)
Inductive ChatModelControl :=
| NoControl
| DisabledText (desc text : string)
| RefreshButton (desc label : string)
| Dropdown (desc : string) (options : list (string * string)) (selected : string).

(** What [updateFolderList] renders. *)
Inductive FolderListView :=
| EmptyText (text : string)
| Items (folders : list string).

Record Button := mkButton {
  buttonText : string;
  cta : bool
}.

Record Tab := mkTab {
  settings : KhojSetting;                 (* this.plugin.settings *)
  saved : KhojSetting;                    (* what saveSettings() last wrote *)
  notices : list string;                   (* texts shown with new Notice(..) *)
  warnings : list string;                  (* console.warn *)
  backendStatusMessage : string;           (* let backendStatusMessage, shared by the handlers *)
  connectHeaderTitle : string;             (* connectHeaderEl.title *)
  backendStatusIcon : string;              (* backendStatusEl text *)
  chatModelSetting : ChatModelControl;     (* this.chatModelSetting and its controls *)
  includeFolderList : FolderListView;
  excludeFolderList : FolderListView;
  forceSyncButton : Button;                (* the force-sync button *)
  indexVaultDisabled : bool;               (* indexVaultSetting disabled? *)
  intervals : list nat;                  (* running window intervals *)
  nextIntervalId : nat;                  (* the id window.setInterval hands out next *)
  registeredIntervals : list nat;        (* this.plugin.registerInterval *)
  syncProgressEl : option ProgressElement;     (* #khoj-sync-progress *)
  syncProgressText : option TextElement;       (* #khoj-sync-progress-text *)
  storageDisplay : option StorageDisplay      (* storageProgressEl with storageProgressText *)
}.

Definition set_settings (v : KhojSetting) (tab : Tab) : Tab :=
  {| settings := v; saved := saved tab; notices := notices tab; warnings := warnings tab;
     backendStatusMessage := backendStatusMessage tab;
     connectHeaderTitle := connectHeaderTitle tab;
     backendStatusIcon := backendStatusIcon tab; chatModelSetting := chatModelSetting tab;
     includeFolderList := includeFolderList tab;
     excludeFolderList := excludeFolderList tab; forceSyncButton := forceSyncButton tab;
     indexVaultDisabled := indexVaultDisabled tab; intervals := intervals tab;
     nextIntervalId := nextIntervalId tab; registeredIntervals := registeredIntervals tab;
     syncProgressEl := syncProgressEl tab; syncProgressText := syncProgressText tab;
     storageDisplay := storageDisplay tab |}.

Definition set_saved (v : KhojSetting) (tab : Tab) : Tab :=
  {| settings := settings tab; saved := v; notices := notices tab;
     warnings := warnings tab; backendStatusMessage := backendStatusMessage tab;
     connectHeaderTitle := connectHeaderTitle tab;
     backendStatusIcon := backendStatusIcon tab; chatModelSetting := chatModelSetting tab;
     includeFolderList := includeFolderList tab;
     excludeFolderList := excludeFolderList tab; forceSyncButton := forceSyncButton tab;
     indexVaultDisabled := indexVaultDisabled tab; intervals := intervals tab;
     nextIntervalId := nextIntervalId tab; registeredIntervals := registeredIntervals tab;
     syncProgressEl := syncProgressEl tab; syncProgressText := syncProgressText tab;
     storageDisplay := storageDisplay tab |}.

Definition set_notices (v : list string) (tab : Tab) : Tab :=
  {| settings := settings tab; saved := saved tab; notices := v; warnings := warnings tab;
     backendStatusMessage := backendStatusMessage tab;
     connectHeaderTitle := connectHeaderTitle tab;
     backendStatusIcon := backendStatusIcon tab; chatModelSetting := chatModelSetting tab;
     includeFolderList := includeFolderList tab;
     excludeFolderList := excludeFolderList tab; forceSyncButton := forceSyncButton tab;
     indexVaultDisabled := indexVaultDisabled tab; intervals := intervals tab;
     nextIntervalId := nextIntervalId tab; registeredIntervals := registeredIntervals tab;
     syncProgressEl := syncProgressEl tab; syncProgressText := syncProgressText tab;
     storageDisplay := storageDisplay tab |}.

Definition set_warnings (v : list string) (tab : Tab) : Tab :=
  {| settings := settings tab; saved := saved tab; notices := notices tab; warnings := v;
     backendStatusMessage := backendStatusMessage tab;
     connectHeaderTitle := connectHeaderTitle tab;
     backendStatusIcon := backendStatusIcon tab; chatModelSetting := chatModelSetting tab;
     includeFolderList := includeFolderList tab;
     excludeFolderList := excludeFolderList tab; forceSyncButton := forceSyncButton tab;
     indexVaultDisabled := indexVaultDisabled tab; intervals := intervals tab;
     nextIntervalId := nextIntervalId tab; registeredIntervals := registeredIntervals tab;
     syncProgressEl := syncProgressEl tab; syncProgressText := syncProgressText tab;
     storageDisplay := storageDisplay tab |}.

Definition set_backendStatusMessage (v : string) (tab : Tab) : Tab :=
  {| settings := settings tab; saved := saved tab; notices := notices tab;
     warnings := warnings tab; backendStatusMessage := v;
     connectHeaderTitle := connectHeaderTitle tab;
     backendStatusIcon := backendStatusIcon tab; chatModelSetting := chatModelSetting tab;
     includeFolderList := includeFolderList tab;
     excludeFolderList := excludeFolderList tab; forceSyncButton := forceSyncButton tab;
     indexVaultDisabled := indexVaultDisabled tab; intervals := intervals tab;
     nextIntervalId := nextIntervalId tab; registeredIntervals := registeredIntervals tab;
     syncProgressEl := syncProgressEl tab; syncProgressText := syncProgressText tab;
     storageDisplay := storageDisplay tab |}.

Definition set_connectHeaderTitle (v : string) (tab : Tab) : Tab :=
  {| settings := settings tab; saved := saved tab; notices := notices tab;
     warnings := warnings tab; backendStatusMessage := backendStatusMessage tab;
     connectHeaderTitle := v; backendStatusIcon := backendStatusIcon tab;
     chatModelSetting := chatModelSetting tab; includeFolderList := includeFolderList tab;
     excludeFolderList := excludeFolderList tab; forceSyncButton := forceSyncButton tab;
     indexVaultDisabled := indexVaultDisabled tab; intervals := intervals tab;
     nextIntervalId := nextIntervalId tab; registeredIntervals := registeredIntervals tab;
     syncProgressEl := syncProgressEl tab; syncProgressText := syncProgressText tab;
     storageDisplay := storageDisplay tab |}.

Definition set_backendStatusIcon (v : string) (tab : Tab) : Tab :=
  {| settings := settings tab; saved := saved tab; notices := notices tab;
     warnings := warnings tab; backendStatusMessage := backendStatusMessage tab;
     connectHeaderTitle := connectHeaderTitle tab; backendStatusIcon := v;
     chatModelSetting := chatModelSetting tab; includeFolderList := includeFolderList tab;
     excludeFolderList := excludeFolderList tab; forceSyncButton := forceSyncButton tab;
     indexVaultDisabled := indexVaultDisabled tab; intervals := intervals tab;
     nextIntervalId := nextIntervalId tab; registeredIntervals := registeredIntervals tab;
     syncProgressEl := syncProgressEl tab; syncProgressText := syncProgressText tab;
     storageDisplay := storageDisplay tab |}.

Definition set_chatModelSetting (v : ChatModelControl) (tab : Tab) : Tab :=
  {| settings := settings tab; saved := saved tab; notices := notices tab;
     warnings := warnings tab; backendStatusMessage := backendStatusMessage tab;
     connectHeaderTitle := connectHeaderTitle tab;
     backendStatusIcon := backendStatusIcon tab; chatModelSetting := v;
     includeFolderList := includeFolderList tab;
     excludeFolderList := excludeFolderList tab; forceSyncButton := forceSyncButton tab;
     indexVaultDisabled := indexVaultDisabled tab; intervals := intervals tab;
     nextIntervalId := nextIntervalId tab; registeredIntervals := registeredIntervals tab;
     syncProgressEl := syncProgressEl tab; syncProgressText := syncProgressText tab;
     storageDisplay := storageDisplay tab |}.

Definition set_includeFolderList (v : FolderListView) (tab : Tab) : Tab :=
  {| settings := settings tab; saved := saved tab; notices := notices tab;
     warnings := warnings tab; backendStatusMessage := backendStatusMessage tab;
     connectHeaderTitle := connectHeaderTitle tab;
     backendStatusIcon := backendStatusIcon tab; chatModelSetting := chatModelSetting tab;
     includeFolderList := v; excludeFolderList := excludeFolderList tab;
     forceSyncButton := forceSyncButton tab; indexVaultDisabled := indexVaultDisabled tab;
     intervals := intervals tab; nextIntervalId := nextIntervalId tab;
     registeredIntervals := registeredIntervals tab; syncProgressEl := syncProgressEl tab;
     syncProgressText := syncProgressText tab; storageDisplay := storageDisplay tab |}.

Definition set_excludeFolderList (v : FolderListView) (tab : Tab) : Tab :=
  {| settings := settings tab; saved := saved tab; notices := notices tab;
     warnings := warnings tab; backendStatusMessage := backendStatusMessage tab;
     connectHeaderTitle := connectHeaderTitle tab;
     backendStatusIcon := backendStatusIcon tab; chatModelSetting := chatModelSetting tab;
     includeFolderList := includeFolderList tab; excludeFolderList := v;
     forceSyncButton := forceSyncButton tab; indexVaultDisabled := indexVaultDisabled tab;
     intervals := intervals tab; nextIntervalId := nextIntervalId tab;
     registeredIntervals := registeredIntervals tab; syncProgressEl := syncProgressEl tab;
     syncProgressText := syncProgressText tab; storageDisplay := storageDisplay tab |}.

Definition set_forceSyncButton (v : Button) (tab : Tab) : Tab :=
  {| settings := settings tab; saved := saved tab; notices := notices tab;
     warnings := warnings tab; backendStatusMessage := backendStatusMessage tab;
     connectHeaderTitle := connectHeaderTitle tab;
     backendStatusIcon := backendStatusIcon tab; chatModelSetting := chatModelSetting tab;
     includeFolderList := includeFolderList tab;
     excludeFolderList := excludeFolderList tab; forceSyncButton := v;
     indexVaultDisabled := indexVaultDisabled tab; intervals := intervals tab;
     nextIntervalId := nextIntervalId tab; registeredIntervals := registeredIntervals tab;
     syncProgressEl := syncProgressEl tab; syncProgressText := syncProgressText tab;
     storageDisplay := storageDisplay tab |}.

Definition set_indexVaultDisabled (v : bool) (tab : Tab) : Tab :=
  {| settings := settings tab; saved := saved tab; notices := notices tab;
     warnings := warnings tab; backendStatusMessage := backendStatusMessage tab;
     connectHeaderTitle := connectHeaderTitle tab;
     backendStatusIcon := backendStatusIcon tab; chatModelSetting := chatModelSetting tab;
     includeFolderList := includeFolderList tab;
     excludeFolderList := excludeFolderList tab; forceSyncButton := forceSyncButton tab;
     indexVaultDisabled := v; intervals := intervals tab;
     nextIntervalId := nextIntervalId tab; registeredIntervals := registeredIntervals tab;
     syncProgressEl := syncProgressEl tab; syncProgressText := syncProgressText tab;
     storageDisplay := storageDisplay tab |}.

Definition set_intervals (v : list nat) (tab : Tab) : Tab :=
  {| settings := settings tab; saved := saved tab; notices := notices tab;
     warnings := warnings tab; backendStatusMessage := backendStatusMessage tab;
     connectHeaderTitle := connectHeaderTitle tab;
     backendStatusIcon := backendStatusIcon tab; chatModelSetting := chatModelSetting tab;
     includeFolderList := includeFolderList tab;
     excludeFolderList := excludeFolderList tab; forceSyncButton := forceSyncButton tab;
     indexVaultDisabled := indexVaultDisabled tab; intervals := v;
     nextIntervalId := nextIntervalId tab; registeredIntervals := registeredIntervals tab;
     syncProgressEl := syncProgressEl tab; syncProgressText := syncProgressText tab;
     storageDisplay := storageDisplay tab |}.

Definition set_nextIntervalId (v : nat) (tab : Tab) : Tab :=
  {| settings := settings tab; saved := saved tab; notices := notices tab;
     warnings := warnings tab; backendStatusMessage := backendStatusMessage tab;
     connectHeaderTitle := connectHeaderTitle tab;
     backendStatusIcon := backendStatusIcon tab; chatModelSetting := chatModelSetting tab;
     includeFolderList := includeFolderList tab;
     excludeFolderList := excludeFolderList tab; forceSyncButton := forceSyncButton tab;
     indexVaultDisabled := indexVaultDisabled tab; intervals := intervals tab;
     nextIntervalId := v; registeredIntervals := registeredIntervals tab;
     syncProgressEl := syncProgressEl tab; syncProgressText := syncProgressText tab;
     storageDisplay := storageDisplay tab |}.

Definition set_registeredIntervals (v : list nat) (tab : Tab) : Tab :=
  {| settings := settings tab; saved := saved tab; notices := notices tab;
     warnings := warnings tab; backendStatusMessage := backendStatusMessage tab;
     connectHeaderTitle := connectHeaderTitle tab;
     backendStatusIcon := backendStatusIcon tab; chatModelSetting := chatModelSetting tab;
     includeFolderList := includeFolderList tab;
     excludeFolderList := excludeFolderList tab; forceSyncButton := forceSyncButton tab;
     indexVaultDisabled := indexVaultDisabled tab; intervals := intervals tab;
     nextIntervalId := nextIntervalId tab; registeredIntervals := v;
     syncProgressEl := syncProgressEl tab; syncProgressText := syncProgressText tab;
     storageDisplay := storageDisplay tab |}.

Definition set_syncProgressEl (v : option ProgressElement) (tab : Tab) : Tab :=
  {| settings := settings tab; saved := saved tab; notices := notices tab;
     warnings := warnings tab; backendStatusMessage := backendStatusMessage tab;
     connectHeaderTitle := connectHeaderTitle tab;
     backendStatusIcon := backendStatusIcon tab; chatModelSetting := chatModelSetting tab;
     includeFolderList := includeFolderList tab;
     excludeFolderList := excludeFolderList tab; forceSyncButton := forceSyncButton tab;
     indexVaultDisabled := indexVaultDisabled tab; intervals := intervals tab;
     nextIntervalId := nextIntervalId tab; registeredIntervals := registeredIntervals tab;
     syncProgressEl := v; syncProgressText := syncProgressText tab;
     storageDisplay := storageDisplay tab |}.

Definition set_syncProgressText (v : option TextElement) (tab : Tab) : Tab :=
  {| settings := settings tab; saved := saved tab; notices := notices tab;
     warnings := warnings tab; backendStatusMessage := backendStatusMessage tab;
     connectHeaderTitle := connectHeaderTitle tab;
     backendStatusIcon := backendStatusIcon tab; chatModelSetting := chatModelSetting tab;
     includeFolderList := includeFolderList tab;
     excludeFolderList := excludeFolderList tab; forceSyncButton := forceSyncButton tab;
     indexVaultDisabled := indexVaultDisabled tab; intervals := intervals tab;
     nextIntervalId := nextIntervalId tab; registeredIntervals := registeredIntervals tab;
     syncProgressEl := syncProgressEl tab; syncProgressText := v;
     storageDisplay := storageDisplay tab |}.

Definition set_storageDisplay (v : option StorageDisplay) (tab : Tab) : Tab :=
  {| settings := settings tab; saved := saved tab; notices := notices tab;
     warnings := warnings tab; backendStatusMessage := backendStatusMessage tab;
     connectHeaderTitle := connectHeaderTitle tab;
     backendStatusIcon := backendStatusIcon tab; chatModelSetting := chatModelSetting tab;
     includeFolderList := includeFolderList tab;
     excludeFolderList := excludeFolderList tab; forceSyncButton := forceSyncButton tab;
     indexVaultDisabled := indexVaultDisabled tab; intervals := intervals tab;
     nextIntervalId := nextIntervalId tab; registeredIntervals := registeredIntervals tab;
     syncProgressEl := syncProgressEl tab; syncProgressText := syncProgressText tab;
     storageDisplay := v |}.

(** *** Collaborators *)

(** The answer of [canConnectToBackend]. *)
Record BackendConnection := mkBackendConnection {
  connected : bool;
  connection_userInfo : option UserInfo;
  statusMessage : string
}.

(** What happens while the force-sync handler is suspended at
    [await updateContentIndex(..)]: progress reports of the index update
    and firings of the indicator interval, in their order. *)
Inductive SyncEvent :=
| Progress (processed total : Z)
| Tick.

(** The event sequence of one index update and how it settles: the new
    [lastSync] map, or the exception it rejects with. *)
Record SyncRun := mkSyncRun {
  events : list SyncEvent;
  outcome : Exn + LastSync
}.

Definition or_empty (o : option string) : string :=   (* o || '' *)
  match o with
  | Some s => s
  | None => ""
  end.

Definition truthy (o : option string) : bool :=
  match o with
  | Some s => negb (String.eqb s "")
  | None => false
  end.

(** [s.replace(/\/$/, '')] *)
Fixpoint strip_trailing_slash (s : string) : string :=
  match s with
  | EmptyString => EmptyString
  | String c EmptyString => if Ascii.eqb c "/" then EmptyString else s
  | String c s' => String c (strip_trailing_slash s')
  end.

(** The four operations on the folder scope. *)
Inductive FolderOp :=
| AddInclude (folder : string)
| RemoveInclude (folder : string)
| AddExclude (folder : string)
| RemoveExclude (folder : string).

(** The moon phases of the indicator, as the source file spells them. *)
Definition phases : list string :=
  ["ðŸŒ‘"; "ðŸŒ˜"; "ðŸŒ—"; "ðŸŒ–"; "ðŸŒ•"; "ðŸŒ”"; "ðŸŒ“"; "ðŸŒ’"].

Section Handlers.

(** [t(key)] of the i18n module under the current language, and
    [String.prototype.trim]. *)
Variable t : string → string.
Variable trim : string → string.

(** From [./utils]. [updateServerChatModel] receives the settings
    object itself, so it answers with the object as it left it. *)
Variable canConnectToBackend : string → string → BackendConnection.
Variable fetchChatModels : KhojSetting → list ModelOption.
Variable fetchUserServerSettings : KhojSetting → option ServerUserConfig.
Variable updateServerChatModel : string → KhojSetting → bool * KhojSetting.

Definition update_settings (f : KhojSetting → KhojSetting) : M Tab unit :=
  JS.modify (λ tab, set_settings (f (settings tab)) tab).

(** [this.plugin.saveSettings()] *)
Definition saveSettings : M Tab unit :=
  JS.modify (λ tab, set_saved (settings tab) tab).

Definition Notice (text : string) : M Tab unit :=
  JS.modify (λ tab, set_notices (notices tab ++ [text]) tab).

Definition console_warn (line : string) : M Tab unit :=
  JS.modify (λ tab, set_warnings (warnings tab ++ [line]) tab).

Definition connectStatusIcon (s : KhojSetting) : string :=
  if connectedToBackend s && truthy (userInfo s ≫= email) then "ðŸŸ¢"
  else if connectedToBackend s then "ðŸŸ¡"
  else "ðŸ”´".

(** **** The chat-model row *)

Definition renderChatModelDropdown : M Tab unit :=
  s ← JS.gets settings;
  if negb (connectedToBackend s) then
    JS.modify (set_chatModelSetting
      (DisabledText (t "settings.chatModel.description.disconnected")
                    (t "settings.chatModel.text.notConnected")))
  else if (length (availableChatModels s) =? 0)%nat && connectedToBackend s then
    JS.modify (set_chatModelSetting
      (RefreshButton (t "settings.chatModel.description.fetching")
                     (t "settings.chatModel.button.refresh")))
  else
    JS.modify (set_chatModelSetting
      (Dropdown (t "settings.chatModel.description.connected")
                (("", t "settings.chatModel.option.default")
                   :: map (λ model, (id model, name model)) (availableChatModels s))
                (or_empty (selectedChatModelId s)))).

Definition refreshModelsAndServerPreference : M Tab unit :=
  s ← JS.gets settings;
  (if connectedToBackend s then
     let availableModels := fetchChatModels s in
     let serverConfig := fetchUserServerSettings s in
     update_settings (set_availableChatModels availableModels);;
     serverSelectedModelId ←
       match serverConfig with
       | Some config =>
           match selected_chat_model_config config with
           | Num n =>
               let serverModelIdStr := Str.number_toString n in
               s' ← JS.gets settings;
               if existsb (λ m, bool_decide (id m = serverModelIdStr)) (availableChatModels s')
               then mret (Some serverModelIdStr)
               else
                 console_warn ("Khoj: Server's selected model ID " +:+ serverModelIdStr
                               +:+ " not in available models. Falling back to default.");;
                 mret None
           | Undefined | Null => mret None
           end
       | None => mret None
       end;
     update_settings (set_selectedChatModelId serverSelectedModelId)
   else
     update_settings (set_availableChatModels []);;
     update_settings (set_selectedChatModelId None));;   (* Clear selection if disconnected *)
  saveSettings;;
  renderChatModelDropdown.

(** [dropdown.setValue(v)] on the dropdown of the chat-model row. *)
Definition dropdown_setValue (v : string) : M Tab unit :=
  JS.modify (λ tab,
    match chatModelSetting tab with
    | Dropdown desc options _ => set_chatModelSetting (Dropdown desc options v) tab
    | _ => tab
    end).

(** The [onChange] handler of the dropdown. *)
Definition chatModel_onChange (value : string) : M Tab unit :=
  s ← JS.gets settings;
  let '(success, s') := updateServerChatModel value s in
  update_settings (λ _, s');;
  if (success : bool) then saveSettings
  else
    s'' ← JS.gets settings;
    dropdown_setValue (or_empty (selectedChatModelId s'')).

(** The user picks [value] in the dropdown: the control shows it, then
    the handler runs. *)
Definition chatModel_select (value : string) : M Tab unit :=
  dropdown_setValue value;;
  chatModel_onChange value.

(** **** Credentials *)

(** The part the two [onChange] handlers share, after the assignment
    of the edited field. *)
Definition reconnect : M Tab unit :=
  s ← JS.gets settings;
  let answer := canConnectToBackend (khojUrl s) (khojApiKey s) in
  update_settings (set_connectedToBackend (connected answer));;
  update_settings (set_userInfo (connection_userInfo answer));;
  JS.modify (set_backendStatusMessage (statusMessage answer));;
  s ← JS.gets settings;
  (if negb (connectedToBackend s) then
     update_settings (set_availableChatModels []);;
     update_settings (set_selectedChatModelId None)
   else mret tt);;
  saveSettings;;
  s ← JS.gets settings;
  JS.modify (set_backendStatusIcon (connectStatusIcon s));;
  message ← JS.gets backendStatusMessage;
  JS.modify (set_connectHeaderTitle message);;
  refreshModelsAndServerPreference.

Definition apiKey_onChange (value : string) : M Tab unit :=
  update_settings (set_khojApiKey (trim value));;
  reconnect.

Definition url_onChange (value : string) : M Tab unit :=
  update_settings (set_khojUrl (strip_trailing_slash (trim value)));;
  reconnect.

(** **** Storage estimate *)

(** [refreshStorageDisplay] up to its first [await]: the display goes
    to its calculating state. What follows the [await] runs after the
    caller has gone on, inside its own [try]/[catch], and writes the
    storage display only. *)
Definition refreshStorageDisplay : M Tab unit :=
  JS.modify (λ tab,
    match storageDisplay tab with
    | None => tab
    | Some d =>
        set_storageDisplay
          (Some {| storage_value := None;
                   storage_max := storage_max d;
                   storage_text := t "settings.storage.calculating" |}) tab
    end).

(** **** Include and exclude folders *)

Definition includes (folder : string) (folders : list string) : bool :=
  bool_decide (folder ∈ folders).

Definition updateFolderList (folders : list string) (emptyText : string) : FolderListView :=
  if (length folders =? 0)%nat then EmptyText emptyText else Items folders.

Definition updateIncludeFolderList : M Tab unit :=
  s ← JS.gets settings;
  JS.modify (set_includeFolderList
               (updateFolderList (syncFolders s) (t "settings.includeFolders.empty"))).

Definition updateExcludeFolderList : M Tab unit :=
  s ← JS.gets settings;
  JS.modify (set_excludeFolderList
               (updateFolderList (excludeFolders s) (t "settings.excludeFolders.empty"))).

(** The callback of the include-folder modal. *)
Definition includeFolder_onChoose (folder : string) : M Tab unit :=
  s ← JS.gets settings;
  if negb (includes folder (syncFolders s)) then
    update_settings (λ s, set_syncFolders (syncFolders s ++ [folder]) s);;
    saveSettings;;
    updateIncludeFolderList;;
    refreshStorageDisplay
  else mret tt.

(** The callback of the exclude-folder modal. *)
Definition excludeFolder_onChoose (folder : string) : M Tab unit :=
  (* Don't allow excluding root folder *)
  if bool_decide (folder = "") then
    Notice (t "settings.excludeFolders.cannotExcludeRoot")
  else
    s ← JS.gets settings;
    if negb (includes folder (excludeFolders s)) then
      update_settings (λ s, set_excludeFolders (excludeFolders s ++ [folder]) s);;
      saveSettings;;
      updateExcludeFolderList;;
      refreshStorageDisplay
    else mret tt.

(** The [onRemove] callbacks of the two folder lists. *)
Definition includeFolder_onRemove (folder : string) : M Tab unit :=
  update_settings (λ s, set_syncFolders (filter (λ f, f ≠ folder) (syncFolders s)) s);;
  saveSettings;;
  updateIncludeFolderList;;
  refreshStorageDisplay.

Definition excludeFolder_onRemove (folder : string) : M Tab unit :=
  update_settings (λ s, set_excludeFolders (filter (λ f, f ≠ folder) (excludeFolders s)) s);;
  saveSettings;;
  updateExcludeFolderList;;
  refreshStorageDisplay.

(** **** Force sync *)

Definition setButtonText (text : string) : M Tab unit :=
  JS.modify (λ tab, set_forceSyncButton {| buttonText := text; cta := cta (forceSyncButton tab) |} tab).

Definition setCta (on : bool) : M Tab unit :=
  JS.modify (λ tab, set_forceSyncButton {| buttonText := buttonText (forceSyncButton tab); cta := on |} tab).

(** [window.setInterval]: a fresh id, running from now on. *)
Definition setInterval : M Tab nat :=
  n ← JS.gets nextIntervalId;
  JS.modify (λ tab, set_nextIntervalId (S n) (set_intervals (intervals tab ++ [n]) tab));;
  mret n.

Definition clearInterval (n : nat) : M Tab unit :=
  JS.modify (λ tab, set_intervals (filter (λ m, m ≠ n) (intervals tab)) tab).

Definition registerInterval (n : nat) : M Tab unit :=
  JS.modify (λ tab, set_registeredIntervals (registeredIntervals tab ++ [n]) tab).

(** The callback of the indicator interval: the next moon phase. *)
Definition progress_indicator_tick : M Tab unit :=
  let updatingPrefix := t "settings.forceSync.button.updating" +:+ " " in
  button ← JS.gets forceSyncButton;
  if Str.startsWith updatingPrefix (buttonText button) then
    let currentPhase := Str.replace updatingPrefix "" (buttonText button) in
    let currentIndex := Str.indexOf currentPhase phases in
    let nextIndex := (currentIndex + 1) `mod` Z.of_nat (length phases) in
    setButtonText (updatingPrefix +:+ default "undefined" (phases !! Z.to_nat nextIndex))
  else mret tt.

(** [onProgress({ processed, total })] *)
Definition onProgress (processed total : Z) : M Tab unit :=
  el ← JS.gets syncProgressEl;
  txt ← JS.gets syncProgressText;
  match el, txt with
  | Some el, Some txt =>
      let el := {| el_value := el_value el; el_max := Z.max total 1; el_display := el_display el |} in
      let el := {| el_value := Z.min processed (el_max el); el_max := el_max el; el_display := el_display el |} in
      JS.modify (set_syncProgressEl (Some el));;
      JS.modify (set_syncProgressText (Some
        {| textContent :=
             Str.replace "{total}" (Str.number_toString total)
               (Str.replace "{processed}" (Str.number_toString processed)
                  (t "settings.forceSync.progress.syncing"));
           text_display := text_display txt |}))
  | _, _ => mret tt
  end.

(** [await updateContentIndex(.., onProgress)] as the handler lives it:
    the events of the run, then its settlement. *)
Definition await_updateContentIndex (progress_indicator : nat) (run : SyncRun) : M Tab LastSync :=
  JS.for_each (events run) (λ event,
    match event with
    | Progress processed total => onProgress processed total
    | Tick =>
        running ← JS.gets intervals;
        if bool_decide (progress_indicator ∈ running) then progress_indicator_tick else mret tt
    end);;
  match outcome run with
  | inl e => JS.throw e
  | inr lastSync' => mret lastSync'
  end.

(** The [onClick] handler of the force-sync button. *)
Definition forceSync_onClick (run : SyncRun) : M Tab unit :=
  (* Disable button while updating index *)
  setButtonText (t "settings.forceSync.button.updating" +:+ " ðŸŒ‘");;
  setCta false;;
  JS.modify (set_indexVaultDisabled true);;
  (* Show indicator for indexing in progress (animated text) *)
  progress_indicator ← setInterval;
  registerInterval progress_indicator;;
  syncProgressEl ← JS.gets syncProgressEl;
  syncProgressText ← JS.gets syncProgressText;
  match syncProgressEl, syncProgressText with
  | Some _, Some _ =>
      JS.modify (set_syncProgressText (Some
        {| textContent := t "settings.forceSync.progress.preparing"; text_display := "" |}));;
      JS.modify (set_syncProgressEl (Some {| el_value := 0; el_max := 1; el_display := "" |}))
  | _, _ => mret tt
  end;;
  JS.try_finally
    (lastSync' ← await_updateContentIndex progress_indicator run;
     update_settings (set_lastSync lastSync'))
    ((* Cleanup: hide sync progress UI *)
     JS.modify (λ tab,
       set_syncProgressEl
         ((λ el, {| el_value := el_value el; el_max := el_max el; el_display := "none" |})
            <$> Settings.syncProgressEl tab) tab);;
     JS.modify (λ tab,
       set_syncProgressText
         ((λ txt, {| textContent := textContent txt; text_display := "none" |})
            <$> Settings.syncProgressText tab) tab);;
     refreshStorageDisplay;;
     (* Reset button state *)
     clearInterval progress_indicator;;
     setButtonText "Update";;
     setCta true;;
     JS.modify (set_indexVaultDisabled false)).

(** **** Sequences of folder operations *)

Definition apply_op (op : FolderOp) : M Tab unit :=
  match op with
  | AddInclude folder => includeFolder_onChoose folder
  | RemoveInclude folder => includeFolder_onRemove folder
  | AddExclude folder => excludeFolder_onChoose folder
  | RemoveExclude folder => excludeFolder_onRemove folder
  end.

Definition run_ops (ops : list FolderOp) : M Tab unit := JS.for_each ops apply_op.

(** An add that names no folder of the other list (a remove always). *)
Definition keeps_apart (op : FolderOp) (s : KhojSetting) : bool :=
  match op with
  | AddInclude folder => negb (includes folder (excludeFolders s))
  | AddExclude folder => negb (includes folder (syncFolders s))
  | RemoveInclude _ | RemoveExclude _ => true
  end.

(** Every operation of the sequence keeps the lists apart in the state
    it is applied to. *)
Fixpoint all_keep_apart (ops : list FolderOp) (tab : Tab) : bool :=
  match ops with
  | [] => true
  | op :: rest => keeps_apart op (settings tab) && all_keep_apart rest (apply_op op tab).2
  end.

(** **** The ways into the disconnected state *)

(** [Disconnecting tab handler]: run on [tab], [handler] finds the
    backend out of reach: an edit of the API key or of the URL after
    which the probe fails, or a reconciliation started while the
    settings say disconnected. *)
Inductive Disconnecting (tab : Tab) : M Tab unit → Prop :=
| apiKey_probe_fails value :
    connected (canConnectToBackend (khojUrl (settings tab)) (trim value)) = false →
    Disconnecting tab (apiKey_onChange value)
| url_probe_fails value :
    connected (canConnectToBackend (strip_trailing_slash (trim value))
                                   (khojApiKey (settings tab))) = false →
    Disconnecting tab (url_onChange value)
| refresh_while_disconnected :
    connectedToBackend (settings tab) = false →
    Disconnecting tab refreshModelsAndServerPreference.

End Handlers.


(** No folder stands in both lists. *)
Definition folders_disjoint (s : KhojSetting) : Prop :=
  ∀ folder, folder ∈ syncFolders s → folder ∉ excludeFolders s.

(** The server's remembered preference in string form, if it has one. *)
Definition server_preference (config : option ServerUserConfig) : option string :=
  match config with
  | Some c =>
      match selected_chat_model_config c with
      | Num n => Some (Str.number_toString n)
      | Undefined | Null => None
      end
  | None => None
  end.

(** [model_id] is the id of one of [models]. *)
Definition listed (model_id : string) (models : list ModelOption) : Prop :=
  ∃ m, m ∈ models ∧ id m = model_id.

End Settings.

(** ** Sample data *)

Module Sample.
Import Settings.

(** The translator under English. *)
Definition t (key : string) : string := key.

Definition is_space (c : ascii) : bool :=
  bool_decide (c ∈ [" "; "009"; "010"; "011"; "012"; "013"]%char).

Fixpoint trim_start (s : string) : string :=
  match s with
  | String c s' => if is_space c then trim_start s' else s
  | EmptyString => EmptyString
  end.

Fixpoint trim_end (s : string) : string :=
  match s with
  | String c s' =>
      let r := trim_end s' in
      if is_space c && String.eqb r "" then EmptyString else String c r
  | EmptyString => EmptyString
  end.

Definition trim (s : string) : string := trim_end (trim_start s).

(** A backend that knows one API key and two chat models, and remembers
    model 7 as the user's choice. *)
Definition canConnectToBackend (url apiKey : string) : BackendConnection :=
  if String.eqb apiKey "kk-secret"
  then {| connected := true;
          connection_userInfo :=
            Some {| username := None; photo := None; is_active := Some true;
                    has_documents := Some false; email := Some "user@example.com" |};
          statusMessage := "Connected" |}
  else {| connected := false; connection_userInfo := None; statusMessage := "Cannot connect" |}.

Definition models : list ModelOption :=
  [ {| id := "1"; name := "alpha" |}; {| id := "2"; name := "beta" |} ].

Definition fetchChatModels (_ : KhojSetting) : list ModelOption := models.

Definition fetchUserServerSettings (_ : KhojSetting) : option ServerUserConfig :=
  Some {| selected_chat_model_config := Num 7 |}.

Definition fetchUserServerSettings_2 (_ : KhojSetting) : option ServerUserConfig :=
  Some {| selected_chat_model_config := Num 2 |}.

(** A push that succeeds for the listed models and then mirrors the id
    into the settings object it was handed. *)
Definition updateServerChatModel (modelId : string) (s : KhojSetting) : bool * KhojSetting :=
  if existsb (λ m, bool_decide (id m = modelId)) (availableChatModels s)
  then (true, set_selectedChatModelId (Some modelId) s)
  else (false, s).

Definition tab : Tab := {|
  settings := DEFAULT_SETTINGS;
  saved := DEFAULT_SETTINGS;
  notices := [];
  warnings := [];
  backendStatusMessage := "";
  connectHeaderTitle := "";
  backendStatusIcon := "";
  chatModelSetting := NoControl;
  includeFolderList := EmptyText "";
  excludeFolderList := EmptyText "";
  forceSyncButton := {| buttonText := "Force Sync"; cta := true |};
  indexVaultDisabled := false;
  intervals := [];
  nextIntervalId := 1;
  registeredIntervals := [];
  syncProgressEl := Some {| el_value := 0; el_max := 1; el_display := "none" |};
  syncProgressText := Some {| textContent := ""; text_display := "none" |};
  storageDisplay := Some {| storage_value := Some 0; storage_max := 1; storage_text := "" |}
|}.

(** The same tab, connected, with the two models fetched and model 1
    selected and shown. *)
Definition connected_tab : Tab :=
  set_chatModelSetting
    (Dropdown "" [("", "Default"); ("1", "alpha"); ("2", "beta")] "1")
    (set_settings
       (set_selectedChatModelId (Some "1")
          (set_availableChatModels models
             (set_connectedToBackend true DEFAULT_SETTINGS))) tab).

(** A small Chinese dictionary. *)
Definition zhCN : I18n.TranslationDict :=
  {[ "settings" := I18n.TDict {[ "section" := I18n.TDict {[ "sync" := I18n.TStr "同步" ]} ]} ]}.

End Sample.

(** Unfolds the monadic glue. *)
Ltac js_unfold :=
  unfold mbind, mret, js_bind, js_ret, completion_bind, completion_ret,
    JS.bind, JS.ret, JS.gets, JS.get, JS.modify, JS.lift, JS.throw, JS.cbind in *.



(** ** settings.ts: the folder suggestions *)

Module FolderSuggestModal.

(** [folders.add(x)] on a [Set<string>], kept in insertion order. *)
Definition set_add (x : string) (folders : list string) : list string :=
  if bool_decide (x ∈ folders) then folders else folders ++ [x].

(** [s.includes(c)] for a one-character [c]. *)
Fixpoint includes_char (c : ascii) (s : string) : bool :=
  match s with
  | EmptyString => false
  | String a s' => Ascii.eqb a c || includes_char c s'
  end.

(** [s.lastIndexOf(c)] for a one-character [c], [-1] when absent. *)
Fixpoint lastIndexOf (c : ascii) (s : string) : Z :=
  match s with
  | EmptyString => -1
  | String a s' =>
      let later := lastIndexOf c s' in
      if bool_decide (later = -1) then (if Ascii.eqb a c then 0 else -1) else later + 1
  end.

(** [parent.substring(0, parent.lastIndexOf('/'))] *)
Definition parent_of (parent : string) : string :=
  String.substring 0 (Z.to_nat (lastIndexOf "/" parent)) parent.

(** The loop that adds all parent folders,
<<
  while (parent.includes('/')) {
      parent = parent.substring(0, parent.lastIndexOf('/'));
      folders.add(parent);
  }
>>
    run for at most [fuel] rounds. *)
Fixpoint add_parents (fuel : nat) (parent : string) (folders : list string) : list string :=
  match fuel with
  | O => folders
  | S fuel' =>
      if includes_char "/" parent
      then let parent' := parent_of parent in
           add_parents fuel' parent' (set_add parent' folders)
      else folders
  end.

(** The body of the [forEach]: [folderPath] is [file.parent?.path]. Every
    round of the loop shortens [parent], so its length is fuel enough. *)
Definition add_file (folders : list string) (folderPath : option string) : list string :=
  match folderPath with
  | Some path =>
      if negb (String.eqb path "")
      then add_parents (String.length path) path (set_add path folders)
      else folders
  | None => folders
  end.

(** The set [getAllFolders] has built when it comes to sorting; the
    argument lists [file.parent?.path] for the files of
    [getAllLoadedFiles()]. *)
Definition folder_set (files : list (option string)) : list string :=
  fold_left add_file files [""].   (* Root folder *)

(** [f] is [p] or one of the folders the loop reaches from [p]. *)
Inductive above (f : string) : string → Prop :=
| above_self : above f f
| above_step p : includes_char "/" p = true → above f (parent_of p) → above f p.

Section Sorting.

(** [Array.prototype.sort()] *)
Variable sort : list string → list string.

Definition getAllFolders (files : list (option string)) : list string :=
  sort (folder_set files).

End Sorting.

End FolderSuggestModal.

(** ** settings.ts: what the tab shows against what it stores *)

Module SettingsViews.
Import Settings.

(** The selected model, if any, is one of the available models. *)
Definition selection_valid (s : KhojSetting) : Prop :=
  ∀ model_id, selectedChatModelId s = Some model_id → listed model_id (availableChatModels s).

(** A dropdown shows one of its options. *)
Definition selection_offered (control : ChatModelControl) : Prop :=
  match control with
  | Dropdown _ options selected => selected ∈ options.*1
  | _ => True
  end.

(** Everything is saved and both folder lists show the stored lists. *)
Definition folders_current (t : string → string) (tab : Tab) : Prop :=
  saved tab = settings tab
  ∧ includeFolderList tab
    = updateFolderList (syncFolders (settings tab)) (t "settings.includeFolders.empty")
  ∧ excludeFolderList tab
    = updateFolderList (excludeFolders (settings tab)) (t "settings.excludeFolders.empty").

(** The control [renderChatModelDropdown] builds for settings [s]. *)
Definition rendered_control (t : string → string) (s : KhojSetting) : ChatModelControl :=
  if negb (connectedToBackend s) then
    DisabledText (t "settings.chatModel.description.disconnected")
                 (t "settings.chatModel.text.notConnected")
  else if (length (availableChatModels s) =? 0)%nat && connectedToBackend s then
    RefreshButton (t "settings.chatModel.description.fetching")
                  (t "settings.chatModel.button.refresh")
  else
    Dropdown (t "settings.chatModel.description.connected")
             (("", t "settings.chatModel.option.default")
                :: map (λ model, (id model, name model)) (availableChatModels s))
             (or_empty (selectedChatModelId s)).

(** The settings a refresh arrives at, given the two fetches. *)
Definition reconciled (fetchChatModels : KhojSetting → list ModelOption)
    (fetchUserServerSettings : KhojSetting → option ServerUserConfig)
    (s : KhojSetting) : KhojSetting :=
  if connectedToBackend s then
    set_selectedChatModelId
      (match server_preference (fetchUserServerSettings s) with
       | Some model_id =>
           if existsb (λ m, bool_decide (id m = model_id)) (fetchChatModels s)
           then Some model_id else None
       | None => None
       end)
      (set_availableChatModels (fetchChatModels s) s)
  else set_selectedChatModelId None (set_availableChatModels [] s).

(** The operation works on the include list. *)
Definition on_include (op : FolderOp) : bool :=
  match op with
  | AddInclude _ | RemoveInclude _ => true
  | AddExclude _ | RemoveExclude _ => false
  end.

End SettingsViews.

(** ** More sample data *)

Module MoreSamples.
Import Settings.

(** The sample tab as [display] leaves it: both folder lists rendered. *)
Definition rendered_tab : Tab :=
  set_excludeFolderList (EmptyText "settings.excludeFolders.empty")
    (set_includeFolderList (EmptyText "settings.includeFolders.empty") Sample.tab).

(** The sample tab after the settings pane was closed: the progress
    elements are gone from the document. *)
Definition closed_tab : Tab :=
  set_syncProgressText None (set_syncProgressEl None Sample.tab).

(** The sample tab while a force sync runs, the indicator at its last
    phase. *)
Definition syncing_tab : Tab :=
  set_forceSyncButton
    {| buttonText := (Sample.t "settings.forceSync.button.updating" +:+ " ")
                       +:+ default "" (phases !! 7%nat);
       cta := false |}
    Sample.tab.

(** A sort by byte order. *)
Definition sort (l : list string) : list string :=
  merge_sort (λ a b, Is_true (String.leb a b)) l.

Definition files : list (option string) :=
  [ Some "notes/daily/2024"; None; Some "notes"; Some "archive/old"; Some "" ].

End MoreSamples.

(** * Properties *)

(** ** The translator *)

Module I18nProps.
Import I18n.

Lemma object_prototype_get_inherited k proto :
  inherited proto → inherited (object_prototype_get k proto).
Proof.
  intros Hp. unfold object_prototype_get.
  repeat case_bool_decide; simpl; auto.
Qed.

(** Past the dictionaries no string is found any more. *)
Lemma hasTranslation_loop_inherited keys :
  ∀ v, inherited v → hasTranslation_loop v keys ≠ Return true.
Proof.
  induction keys as [|k rest IH]; intros v Hv.
  - destruct v as [s|[d| |]| |]; simpl in *; try done.
  - destruct v as [s|[d| |]| |]; simpl in *; try done.
    js_unfold. destruct (object_prototype_has k); [|done].
    apply IH. by apply object_prototype_get_inherited.
Qed.

Lemma t_loop_inherited key keys :
  ∀ v s, inherited v → t_loop key v keys = Return s → s = key.
Proof.
  induction keys as [|k rest IH]; intros v s Hv.
  - destruct v as [s'|[d| |]| |]; simpl in *; try done; congruence.
  - destruct v as [s'|[d| |]| |]; simpl in *; try done; try congruence.
    js_unfold. destruct (object_prototype_has k); [|congruence].
    apply IH. by apply object_prototype_get_inherited.
Qed.

(** The loop of [hasTranslation] answers [true] exactly on a walk that
    ends at a string. *)
Lemma hasTranslation_loop_walk keys :
  ∀ v, hasTranslation_loop (of_trans v) keys = Return true ↔ ∃ s, walk v keys = Some (TStr s).
Proof.
  induction keys as [|k rest IH]; intros v.
  - destruct v as [s|d]; simpl; split.
    + eauto.
    + done.
    + intros H. vm_compute in H. congruence.
    + intros [s Hs]. congruence.
  - destruct v as [s|d]; simpl.
    + split; [done | intros [? ?]; done].
    + js_unfold. destruct (d !! k) as [v'|] eqn:Hk; simpl.
      * apply IH.
      * split; [|intros [? ?]; done].
        destruct (object_prototype_has k); [|done].
        intros H. exfalso. revert H. apply hasTranslation_loop_inherited.
        by apply object_prototype_get_inherited.
Qed.

(** On such a walk the loop of [t] returns the string. *)
Lemma t_loop_walk key keys :
  ∀ v s, walk v keys = Some (TStr s) → t_loop key (of_trans v) keys = Return s.
Proof.
  induction keys as [|k rest IH]; intros v s.
  - simpl. intros [= ->]. done.
  - destruct v as [s'|d]; simpl; [done|].
    js_unfold. destruct (d !! k) as [v'|] eqn:Hk; simpl; [|done].
    apply IH.
Qed.

(** The two loops take the same steps: where the loop of
    [hasTranslation] answers [false] the loop of [t] returns the key,
    and where one throws the other throws the same. *)
Lemma loops_agree key keys :
  ∀ v, (hasTranslation_loop v keys = Return false → t_loop key v keys = Return key)
       ∧ (∀ e, hasTranslation_loop v keys = Throw e → t_loop key v keys = Throw e).
Proof.
  induction keys as [|k rest IH]; intros v.
  - destruct v as [s|o| |]; simpl; split; intros; try done; try congruence.
  - destruct v as [s|o| |]; simpl; try (split; intros; done).
    js_unfold. destruct (js_in k o) as [[|]|e].
    + destruct (js_get k o) as [v'|e]; [apply IH|].
      split; [done | intros e' H; congruence].
    + split; [done | intros e' H; done].
    + split; [done | intros e' H; congruence].
Qed.

(** Without a [__proto__] segment the loop never meets [null], so it
    returns. *)
Lemma hasTranslation_loop_returns keys :
  "__proto__" ∉ keys →
  ∀ v, below_object_prototype v → ∃ b, hasTranslation_loop v keys = Return b.
Proof.
  induction keys as [|k rest IH]; intros Hk v Hv; [simpl; eauto|].
  apply not_elem_of_cons in Hk as [Hne Hrest].
  destruct v as [s|[d| |]| |]; simpl in *; try done; eauto.
  js_unfold. destruct (_ || _); [|eauto].
  apply (IH Hrest). destruct (d !! k) as [[s|d']|]; simpl; try done.
  unfold object_prototype_get. rewrite bool_decide_eq_false_2 by congruence.
  by case_bool_decide.
Qed.

Lemma split_nonempty sep s : Str.split sep s ≠ [].
Proof.
  destruct s as [|c s]; simpl; [done|].
  destruct (Ascii.eqb c sep); [done|]. by destruct (Str.split sep s).
Qed.

Section Registry.
Variable zhCN : TranslationDict.

Lemma translations_at_total language :
  translations_at zhCN language
  = Some (match language with en => ∅ | zh_CN | zh => zhCN end).
Proof. by destruct language. Qed.

Lemma walk_empty_misses keys : keys ≠ [] → walk (TDict ∅) keys = None.
Proof. destruct keys as [|k rest]; [done|]. intros _. simpl. by rewrite lookup_empty. Qed.

(** [t] under English is the identity on keys. *)
Lemma t_en key st : t zhCN key (Some en) st = (Return key, st).
Proof. reflexivity. Qed.

(** The two functions with the monadic glue run. *)
Lemma t_run key lang st :
  t zhCN key lang st
  = if bool_decide (language_of lang st = en) then (Return key, st)
    else (t_loop key (JObj (ODict zhCN)) (Str.split "." key), st).
Proof.
  unfold t, effective_language, language_of. js_unfold.
  destruct lang as [l|]; simpl; [destruct l | destruct (currentLanguage st)]; reflexivity.
Qed.

Lemma hasTranslation_run key lang st :
  hasTranslation zhCN key lang st
  = (hasTranslation_loop (JObj (ODict (selected_dict zhCN lang st))) (Str.split "." key), st).
Proof.
  unfold hasTranslation, effective_language, selected_dict. js_unfold.
  destruct lang as [l|]; simpl; rewrite translations_at_total; reflexivity.
Qed.

Lemma selected_dict_not_en lang st :
  language_of lang st ≠ en → selected_dict zhCN lang st = zhCN.
Proof.
  unfold selected_dict, language_of. rewrite translations_at_total.
  destruct lang as [l|]; simpl; [destruct l | destruct (currentLanguage st)]; done.
Qed.

Lemma selected_dict_en lang st :
  language_of lang st = en → selected_dict zhCN lang st = ∅.
Proof.
  unfold selected_dict, language_of. rewrite translations_at_total.
  destruct lang as [l|]; simpl; [destruct l | destruct (currentLanguage st)]; done.
Qed.

(** Neither function writes the module state. *)
Lemma hasTranslation_pure key lang st : (hasTranslation zhCN key lang st).2 = st.
Proof. by rewrite hasTranslation_run. Qed.

Lemma t_pure key lang st : (t zhCN key lang st).2 = st.
Proof. rewrite t_run. by case_bool_decide. Qed.

(** C9: [hasTranslation] leaves the module state as it was and answers
    [true] exactly when the dotted-path walk over the dictionary of
    the effective language ends at a string leaf; and whenever it
    answers [true], [t] returns the string leaf that walk ends at. *)
Theorem hasTranslation_true_iff_walk_ends_at_string key lang st :
  (hasTranslation zhCN key lang st).2 = st
  ∧ ((hasTranslation zhCN key lang st).1 = Return true
     ↔ ∃ s, walk_key zhCN key lang st = Some (TStr s))
  ∧ ((hasTranslation zhCN key lang st).1 = Return true
     → ∃ s, walk_key zhCN key lang st = Some (TStr s)
            ∧ t zhCN key lang st = (Return s, st))
  ∧ (language_of lang st ≠ en →
     ((hasTranslation zhCN key lang st).1 = Return false → t zhCN key lang st = (Return key, st))
     ∧ (∀ e, (hasTranslation zhCN key lang st).1 = Throw e → t zhCN key lang st = (Throw e, st))).
Proof.
  assert (Hiff : (hasTranslation zhCN key lang st).1 = Return true
                 ↔ ∃ s, walk_key zhCN key lang st = Some (TStr s)).
  { rewrite hasTranslation_run. simpl.
    apply (hasTranslation_loop_walk _ (TDict _)). }
  split; [apply hasTranslation_pure|]. split; [exact Hiff|]. split.
  - intros Htrue. apply Hiff in Htrue as [s Hwalk]. exists s. split; [done|].
    unfold walk_key in Hwalk. rewrite t_run.
    case_bool_decide as Hen.
    + rewrite (selected_dict_en _ _ Hen), walk_empty_misses in Hwalk;
        [done | apply split_nonempty].
    + rewrite (selected_dict_not_en _ _ Hen) in Hwalk.
      by rewrite (t_loop_walk key _ (TDict zhCN) s).
  - intros Hen. rewrite hasTranslation_run, t_run, (selected_dict_not_en _ _ Hen).
    rewrite bool_decide_eq_false_2 by done. simpl.
    destruct (loops_agree key (Str.split "." key) (JObj (ODict zhCN))) as [Hfalse Hthrow].
    split.
    + intros H. by rewrite (Hfalse H).
    + intros e H. by rewrite (Hthrow e H).
Qed.

(** Away from the prototype chain the fallback is as specified: a key
    without a [__proto__] segment is answered with the string leaf
    its walk ends at, and with the key itself on every other walk. *)
Lemma t_returns_without_proto_segment key lang st :
  "__proto__" ∉ Str.split "." key →
  t zhCN key lang st
  = (Return (match walk_key zhCN key lang st with
             | Some (TStr s) => s
             | _ => key
             end), st).
Proof.
  intros Hk. rewrite t_run. unfold walk_key. case_bool_decide as Hen.
  - rewrite (selected_dict_en _ _ Hen), walk_empty_misses; [done | apply split_nonempty].
  - rewrite (selected_dict_not_en _ _ Hen).
    destruct (hasTranslation_loop_returns _ Hk (JObj (ODict zhCN)) I) as [b Hb].
    destruct b.
    + apply (hasTranslation_loop_walk _ (TDict zhCN)) in Hb as [s Hs].
      by rewrite Hs, (t_loop_walk key _ (TDict zhCN) s).
    + rewrite (proj1 (loops_agree key _ _) Hb).
      destruct (walk (TDict zhCN) (Str.split "." key)) as [[s|d]|] eqn:Hw; try done.
      assert (Ht : hasTranslation_loop (of_trans (TDict zhCN)) (Str.split "." key) = Return true)
        by (apply hasTranslation_loop_walk; eauto).
      simpl in Ht. congruence.
Qed.

(** Under English [hasTranslation] never answers [true]. *)
Lemma hasTranslation_en_never_true key st :
  (hasTranslation zhCN key (Some en) st).1 ≠ Return true.
Proof.
  rewrite hasTranslation_run, selected_dict_en by done. simpl. intros H.
  assert (Hw : ∃ s, walk (TDict ∅) (Str.split "." key) = Some (TStr s)).
  { apply hasTranslation_loop_walk. exact H. }
  destruct Hw as [s Hs]. rewrite walk_empty_misses in Hs; [done | apply split_nonempty].
Qed.

(** C8 (the lookup falls back to the key and never throws) fails at the
    key ["__proto__.__proto__.x"] under either Chinese code: the first
    segment is found on the prototype chain and yields
    [Object.prototype], the second yields its prototype [null], and the
    [in] test of the third segment throws a [TypeError] instead of
    returning the key. *)
Theorem t_throws_past_object_prototype st (language : LanguageCode) :
  language ≠ en →
  zhCN !! "__proto__" = None →
  ∃ msg, t zhCN "__proto__.__proto__.x" (Some language) st = (Throw (TypeError msg), st).
Proof.
  intros Hne Hown. rewrite t_run. simpl.
  rewrite bool_decide_eq_false_2 by done.
  js_unfold. rewrite Hown. simpl. eauto.
Qed.

(** C10 ([hasTranslation] answers [false] for every key under English)
    fails at the same key: the walk over the empty English dictionary
    goes on into [Object.prototype] and [null], and the call throws a
    [TypeError] where the specification has it answer [false]. *)
Theorem hasTranslation_en_throws_past_object_prototype st :
  hasTranslation zhCN "__proto__.__proto__.x" (Some en) st
  = (Throw (TypeError "Cannot use 'in' operator to search for a key in null"), st).
Proof. reflexivity. Qed.

End Registry.

Lemma hasTranslation_true_iff_walk_ends_at_string_witness :
  (hasTranslation Sample.zhCN "settings.section.sync" (Some zh) initial).1 = Return true
  ∧ ∃ s, walk_key Sample.zhCN "settings.section.sync" (Some zh) initial = Some (TStr s)
         ∧ t Sample.zhCN "settings.section.sync" (Some zh) initial = (Return s, initial).
Proof.
  split; [reflexivity|].
  destruct (hasTranslation_true_iff_walk_ends_at_string
              Sample.zhCN "settings.section.sync" (Some zh) initial)
    as (_ & _ & Hleaf & _).
  apply Hleaf. reflexivity.
Defined.

Lemma t_throws_past_object_prototype_witness :
  zh_CN ≠ en ∧ (∅ : TranslationDict) !! "__proto__" = None
  ∧ ∃ msg, t ∅ "__proto__.__proto__.x" (Some zh_CN) initial = (Throw (TypeError msg), initial).
Proof.
  split; [done|]. split; [done|].
  apply (t_throws_past_object_prototype ∅ initial zh_CN); done.
Defined.

End I18nProps.

(** ** The settings tab *)

Module SettingsProps.
Import Settings.

Ltac run_handler :=
  unfold refreshModelsAndServerPreference, renderChatModelDropdown, reconnect,
    apiKey_onChange, url_onChange, chatModel_select, chatModel_onChange,
    dropdown_setValue, includeFolder_onChoose, excludeFolder_onChoose,
    includeFolder_onRemove, excludeFolder_onRemove, updateIncludeFolderList,
    updateExcludeFolderList, refreshStorageDisplay, saveSettings, update_settings,
    Notice, console_warn, onProgress in *;
  js_unfold; simpl in *.

(** *** Model preference *)

Section Reconciliation.
Variable t : string → string.
Variable fetchChatModels : KhojSetting → list ModelOption.
Variable fetchUserServerSettings : KhojSetting → option ServerUserConfig.

Lemma some_listed model_id models :
  existsb (λ m, bool_decide (id m = model_id)) models = true ↔ listed model_id models.
Proof.
  unfold listed. rewrite existsb_exists. split.
  - intros [m [Hin Hm]]. exists m. split; [by apply list_elem_of_In|].
    by apply bool_decide_eq_true in Hm.
  - intros [m [Hin Hm]]. exists m. split; [by apply list_elem_of_In|].
    by apply bool_decide_eq_true.
Qed.

(** What a connected refresh leaves in the settings. *)
Lemma refresh_connected tab :
  connectedToBackend (settings tab) = true →
  let fetched := fetchChatModels (settings tab) in
  let chosen :=
    match server_preference (fetchUserServerSettings (settings tab)) with
    | Some model_id =>
        if existsb (λ m, bool_decide (id m = model_id)) fetched then Some model_id else None
    | None => None
    end in
  let tab' := (refreshModelsAndServerPreference t fetchChatModels fetchUserServerSettings tab).2 in
  settings tab' = set_selectedChatModelId chosen (set_availableChatModels fetched (settings tab))
  ∧ saved tab' = settings tab'.
Proof.
  intros Hc. run_handler. rewrite Hc. simpl.
  destruct (fetchUserServerSettings (settings tab)) as [[[| |n]]|]; simpl;
    try (rewrite Hc; simpl; by destruct (length _ =? 0)%nat).
  destruct (existsb _ _); simpl; rewrite Hc; simpl; by destruct (length _ =? 0)%nat.
Qed.

(** C1: a refresh run while connected stores the fetched model list;
    it selects the server's remembered id when that id, in string
    form, is the id of a fetched model, and selects [null] when the
    server has no preference or the id is not among the fetched
    models; the outcome is saved. *)
Theorem refresh_reconciles_server_preference tab :
  connectedToBackend (settings tab) = true →
  let fetched := fetchChatModels (settings tab) in
  let serverId := server_preference (fetchUserServerSettings (settings tab)) in
  let tab' := (refreshModelsAndServerPreference t fetchChatModels fetchUserServerSettings tab).2 in
  availableChatModels (settings tab') = fetched
  ∧ (∀ model_id, serverId = Some model_id → listed model_id fetched →
                 selectedChatModelId (settings tab') = Some model_id)
  ∧ (serverId = None ∨ (∃ model_id, serverId = Some model_id ∧ ¬ listed model_id fetched) →
     selectedChatModelId (settings tab') = None)
  ∧ saved tab' = settings tab'.
Proof.
  intros Hc fetched serverId tab'.
  destruct (refresh_connected tab Hc) as [Hs Hsaved].
  fold fetched serverId tab' in Hs, Hsaved.
  rewrite Hs. simpl. repeat split; [| |by rewrite Hsaved, Hs].
  - intros model_id -> Hl. apply some_listed in Hl. by rewrite Hl.
  - intros [-> | [model_id [-> Hn]]]; [done|].
    destruct (existsb _ _) eqn:He; [|done].
    apply some_listed in He. done.
Qed.

End Reconciliation.

(** The server remembers model 7, the list holds models 1 and 2: the
    selection falls back to [null]. *)
Lemma refresh_reconciles_server_preference_witness :
  connectedToBackend (settings Sample.connected_tab) = true
  ∧ selectedChatModelId
      (settings (refreshModelsAndServerPreference Sample.t Sample.fetchChatModels
                   Sample.fetchUserServerSettings Sample.connected_tab).2) = None.
Proof.
  split; [reflexivity|].
  apply (refresh_reconciles_server_preference Sample.t Sample.fetchChatModels
           Sample.fetchUserServerSettings Sample.connected_tab); [reflexivity|].
  right. exists "7". split; [reflexivity|].
  intros [m [Hin Hid]]. revert Hin Hid. unfold Sample.fetchChatModels, Sample.models.
  rewrite !elem_of_cons, elem_of_nil. intros [->|[->|[]]]; discriminate.
Defined.

(** *** Losing the connection *)

Section Disconnection.
Variable t : string → string.
Variable trim : string → string.
Variable canConnectToBackend : string → string → BackendConnection.
Variable fetchChatModels : KhojSetting → list ModelOption.
Variable fetchUserServerSettings : KhojSetting → option ServerUserConfig.

Lemma refresh_disconnected tab :
  connectedToBackend (settings tab) = false →
  let tab' := (refreshModelsAndServerPreference t fetchChatModels fetchUserServerSettings tab).2 in
  settings tab' = set_selectedChatModelId None (set_availableChatModels [] (settings tab))
  ∧ saved tab' = settings tab'.
Proof. intros Hc. run_handler. rewrite Hc. simpl. by rewrite Hc. Qed.

Lemma reconnect_probe_fails tab :
  connected (canConnectToBackend (khojUrl (settings tab)) (khojApiKey (settings tab))) = false →
  let tab' := (reconnect t canConnectToBackend fetchChatModels fetchUserServerSettings tab).2 in
  connectedToBackend (settings tab') = false
  ∧ availableChatModels (settings tab') = []
  ∧ selectedChatModelId (settings tab') = None
  ∧ saved tab' = settings tab'.
Proof. intros Hc. run_handler. rewrite Hc. simpl. done. Qed.

(** C3: every way into the disconnected state (a failed probe after an
    edit of the API key or of the URL, a reconciliation run while
    disconnected) ends with no chat models, no selected model, the
    settings marked disconnected, and all of it saved, whatever the
    tab held before. *)
Theorem disconnection_clears_models_and_selection tab handler :
  Disconnecting t trim canConnectToBackend fetchChatModels fetchUserServerSettings tab handler →
  let tab' := (handler tab).2 in
  connectedToBackend (settings tab') = false
  ∧ availableChatModels (settings tab') = []
  ∧ selectedChatModelId (settings tab') = None
  ∧ saved tab' = settings tab'.
Proof.
  intros [value Hprobe | value Hprobe | Hoff]; simpl.
  - unfold apiKey_onChange, update_settings. js_unfold. simpl.
    apply (reconnect_probe_fails (set_settings (set_khojApiKey (trim value) (settings tab)) tab)).
    exact Hprobe.
  - unfold url_onChange, update_settings. js_unfold. simpl.
    apply (reconnect_probe_fails
             (set_settings (set_khojUrl (strip_trailing_slash (trim value)) (settings tab)) tab)).
    exact Hprobe.
  - destruct (refresh_disconnected tab Hoff) as [Hs Hsaved].
    simpl in Hs, Hsaved. rewrite Hsaved, Hs. simpl. done.
Qed.

End Disconnection.

(** A connected tab with two models and model 1 selected; the API key
    is edited to one the backend refuses. *)
Lemma disconnection_clears_models_and_selection_witness :
  let handler := apiKey_onChange Sample.t Sample.trim Sample.canConnectToBackend
                   Sample.fetchChatModels Sample.fetchUserServerSettings "  wrong key " in
  availableChatModels (settings Sample.connected_tab) = Sample.models
  ∧ availableChatModels (settings (handler Sample.connected_tab).2) = []
  ∧ selectedChatModelId (settings (handler Sample.connected_tab).2) = None.
Proof.
  intros handler. split; [reflexivity|].
  destruct (disconnection_clears_models_and_selection Sample.t Sample.trim
              Sample.canConnectToBackend Sample.fetchChatModels
              Sample.fetchUserServerSettings Sample.connected_tab handler)
    as (_ & Hmodels & Hselected & _).
  { apply apiKey_probe_fails. reflexivity. }
  split; [exact Hmodels | exact Hselected].
Defined.

(** *** Choosing a model *)

Section Selection.
Variable updateServerChatModel : string → KhojSetting → bool * KhojSetting.



End Selection.



(** *** Include and exclude folders *)

Section Folders.
Variable t : string → string.

(** The settings after each of the four handlers. *)
Lemma includeFolder_onChoose_settings folder tab :
  settings (includeFolder_onChoose t folder tab).2
  = if includes folder (syncFolders (settings tab)) then settings tab
    else set_syncFolders (syncFolders (settings tab) ++ [folder]) (settings tab).
Proof.
  run_handler. destruct (includes _ _); simpl; [done|].
  by destruct (storageDisplay tab).
Qed.

Lemma excludeFolder_onChoose_settings folder tab :
  settings (excludeFolder_onChoose t folder tab).2
  = if bool_decide (folder = "") || includes folder (excludeFolders (settings tab))
    then settings tab
    else set_excludeFolders (excludeFolders (settings tab) ++ [folder]) (settings tab).
Proof.
  run_handler. case_bool_decide; simpl; [done|].
  destruct (includes _ _); simpl; [done|]. by destruct (storageDisplay tab).
Qed.

Lemma includeFolder_onRemove_settings folder tab :
  settings (includeFolder_onRemove t folder tab).2
  = set_syncFolders (filter (λ f, f ≠ folder) (syncFolders (settings tab))) (settings tab).
Proof. run_handler. by destruct (storageDisplay tab). Qed.

Lemma excludeFolder_onRemove_settings folder tab :
  settings (excludeFolder_onRemove t folder tab).2
  = set_excludeFolders (filter (λ f, f ≠ folder) (excludeFolders (settings tab))) (settings tab).
Proof. run_handler. by destruct (storageDisplay tab). Qed.

Lemma apply_op_returns op tab : (apply_op t op tab).1 = Return tt.
Proof.
  destruct op as [f|f|f|f]; simpl; run_handler; unfold includes;
    repeat case_bool_decide; done.
Qed.

Lemma run_ops_cons op ops tab :
  run_ops t (op :: ops) tab = run_ops t ops (apply_op t op tab).2.
Proof.
  unfold run_ops. simpl. unfold JS.bind.
  pose proof (apply_op_returns op tab) as Hr.
  destruct (apply_op t op tab) as [[[]|e] tab']; simpl in *; done.
Qed.

(** One operation that keeps the lists apart preserves disjointness. *)
Lemma apply_op_disjoint op tab :
  folders_disjoint (settings tab) →
  keeps_apart op (settings tab) = true →
  folders_disjoint (settings (apply_op t op tab).2).
Proof.
  unfold folders_disjoint, keeps_apart, includes.
  intros Hd Hk. destruct op as [f|f|f|f]; unfold apply_op.
  - rewrite includeFolder_onChoose_settings.
    destruct (includes _ _); [done|]. simpl.
    apply negb_true_iff, bool_decide_eq_false in Hk.
    intros g [Hg | ->%list_elem_of_singleton]%elem_of_app; [by apply Hd | done].
  - rewrite includeFolder_onRemove_settings. simpl.
    intros g [_ Hg]%list_elem_of_filter. by apply Hd.
  - rewrite excludeFolder_onChoose_settings.
    destruct (_ || _); [done|]. simpl.
    apply negb_true_iff, bool_decide_eq_false in Hk.
    intros g Hg [Hx | ->%list_elem_of_singleton]%elem_of_app; [by apply (Hd g) | done].
  - rewrite excludeFolder_onRemove_settings. simpl.
    intros g Hg [_ Hx]%list_elem_of_filter. by apply (Hd g).
Qed.

(** C4 as amended: disjoint include and exclude lists stay disjoint
    through every sequence of add and remove operations in which each
    add names a folder that is, at that moment, not in the other
    list. *)
Theorem folder_lists_stay_disjoint ops :
  ∀ tab,
    folders_disjoint (settings tab) →
    all_keep_apart t ops tab = true →
    folders_disjoint (settings (run_ops t ops tab).2).
Proof.
  induction ops as [|op rest IH]; intros tab Hd Hk.
  - exact Hd.
  - simpl in Hk. apply andb_true_iff in Hk as [Hop Hrest].
    rewrite run_ops_cons. apply IH; [|exact Hrest].
    by apply apply_op_disjoint.
Qed.

(** C5: choosing the vault root [""] for exclusion shows the rejection
    notice and changes nothing else; any other folder chosen for
    exclusion is in the exclude list afterwards, and any folder chosen
    for inclusion, the root too, is in the include list afterwards,
    in both cases without a notice. Neither handler reads the vault. *)
Theorem root_exclusion_rejected_others_accepted tab folder :
  excludeFolder_onChoose t "" tab
  = (Return tt,
     set_notices (notices tab ++ [t "settings.excludeFolders.cannotExcludeRoot"]) tab)
  ∧ (folder ≠ "" →
     (excludeFolder_onChoose t folder tab).1 = Return tt
     ∧ folder ∈ excludeFolders (settings (excludeFolder_onChoose t folder tab).2)
     ∧ notices (excludeFolder_onChoose t folder tab).2 = notices tab)
  ∧ (includeFolder_onChoose t folder tab).1 = Return tt
  ∧ folder ∈ syncFolders (settings (includeFolder_onChoose t folder tab).2)
  ∧ notices (includeFolder_onChoose t folder tab).2 = notices tab.
Proof.
  split; [reflexivity|]. split.
  - intros Hne.
    rewrite excludeFolder_onChoose_settings, (bool_decide_eq_false_2 _ Hne). simpl.
    unfold includes. case_bool_decide as Hin; simpl.
    + run_handler. rewrite (bool_decide_eq_false_2 _ Hne). simpl. unfold includes.
      rewrite bool_decide_eq_true_2 by done. done.
    + run_handler. rewrite (bool_decide_eq_false_2 _ Hne). simpl. unfold includes.
      rewrite bool_decide_eq_false_2 by done. simpl.
      split; [done|]. split; [|by destruct (storageDisplay tab)].
      apply elem_of_app. right. by apply list_elem_of_singleton.
  - rewrite includeFolder_onChoose_settings.
    unfold includes. case_bool_decide as Hin; simpl.
    + run_handler. unfold includes. rewrite bool_decide_eq_true_2 by done. done.
    + run_handler. unfold includes. rewrite bool_decide_eq_false_2 by done. simpl.
      split; [done|]. split; [|by destruct (storageDisplay tab)].
      apply elem_of_app. right. by apply list_elem_of_singleton.
Qed.

End Folders.

(** C4 as stated fails: from the default settings, including a folder
    and then excluding the same folder puts it in both lists. *)
Lemma folder_lists_not_disjoint :
  let tab' := (run_ops Sample.t [AddInclude "notes"; AddExclude "notes"] Sample.tab).2 in
  folders_disjoint (settings Sample.tab)
  ∧ "notes" ∈ syncFolders (settings tab')
  ∧ "notes" ∈ excludeFolders (settings tab')
  ∧ ¬ folders_disjoint (settings tab').
Proof.
  simpl. split; [intros f Hf; by apply elem_of_nil in Hf|].
  assert (Hin : "notes" ∈ ["notes"]) by (by apply list_elem_of_singleton).
  split; [exact Hin|]. split; [exact Hin|].
  intros Hd. by apply (Hd "notes").
Qed.

Lemma folder_lists_stay_disjoint_witness :
  let ops := [AddInclude "notes"; AddExclude "drafts"; RemoveInclude "notes"; AddExclude "notes"] in
  all_keep_apart Sample.t ops Sample.tab = true
  ∧ excludeFolders (settings (run_ops Sample.t ops Sample.tab).2) = ["drafts"; "notes"]
  ∧ folders_disjoint (settings (run_ops Sample.t ops Sample.tab).2).
Proof.
  intros ops. split; [reflexivity|]. split; [reflexivity|].
  apply (folder_lists_stay_disjoint Sample.t ops Sample.tab); [|reflexivity].
  intros f Hf. by apply elem_of_nil in Hf.
Defined.

Lemma root_exclusion_rejected_others_accepted_witness :
  "notes" ≠ ""
  ∧ excludeFolders (settings (excludeFolder_onChoose Sample.t "" Sample.tab).2) = []
  ∧ notices (excludeFolder_onChoose Sample.t "" Sample.tab).2
    = ["settings.excludeFolders.cannotExcludeRoot"]
  ∧ "notes" ∈ excludeFolders (settings (excludeFolder_onChoose Sample.t "notes" Sample.tab).2)
  ∧ "" ∈ syncFolders (settings (includeFolder_onChoose Sample.t "" Sample.tab).2).
Proof.
  split; [discriminate|]. split; [reflexivity|]. split; [reflexivity|].
  destruct (root_exclusion_rejected_others_accepted Sample.t Sample.tab "notes")
    as (_ & Hexclude & _).
  destruct (root_exclusion_rejected_others_accepted Sample.t Sample.tab "")
    as (_ & _ & _ & Hinclude & _).
  split; [|exact Hinclude].
  destruct Hexclude as (_ & Hin & _); [discriminate | exact Hin].
Defined.

(** *** Sync progress and force sync *)

Section ForceSync.
Variable t : string → string.

(** C6: with both progress elements in the document, a report of
    [processed] out of [total], neither negative, leaves the bar with
    maximum [max(total, 1)], which is never zero, and with value
    [min(processed, maximum)], which lies between zero and the
    maximum. *)
Theorem onProgress_clamps_display tab processed total el txt :
  0 ≤ processed →
  0 ≤ total →
  syncProgressEl tab = Some el →
  syncProgressText tab = Some txt →
  let result := onProgress t processed total tab in
  result.1 = Return tt
  ∧ ∃ el', syncProgressEl result.2 = Some el'
           ∧ el_max el' = Z.max total 1
           ∧ el_max el' ≠ 0
           ∧ el_value el' = Z.min processed (el_max el')
           ∧ 0 ≤ el_value el' ≤ el_max el'.
Proof.
  intros Hp Ht Hel Htxt. run_handler. rewrite Hel, Htxt. simpl.
  split; [done|]. eexists. split; [done|]. simpl. lia.
Qed.

(** A progress report or a tick of the indicator neither throws nor
    touches the running intervals. *)
Lemma onProgress_quiet processed total tab :
  (onProgress t processed total tab).1 = Return tt
  ∧ intervals (onProgress t processed total tab).2 = intervals tab.
Proof.
  run_handler. by destruct (syncProgressEl tab), (syncProgressText tab).
Qed.

Lemma progress_indicator_tick_quiet tab :
  (progress_indicator_tick t tab).1 = Return tt
  ∧ intervals (progress_indicator_tick t tab).2 = intervals tab.
Proof.
  unfold progress_indicator_tick, setButtonText. js_unfold.
  by destruct (Str.startsWith _ _).
Qed.

Lemma await_updateContentIndex_settles progress_indicator run tab :
  (await_updateContentIndex t progress_indicator run tab).1
  = (match outcome run with
     | inl e => Throw e
     | inr lastSync' => Return lastSync'
     end)
  ∧ intervals (await_updateContentIndex t progress_indicator run tab).2 = intervals tab.
Proof.
  unfold await_updateContentIndex.
  assert (Hevents : ∀ evs tab0,
    let body := λ event : SyncEvent,
      match event with
      | Progress processed total => onProgress t processed total
      | Tick =>
          running ← JS.gets intervals;
          if bool_decide (progress_indicator ∈ running)
          then progress_indicator_tick t else mret tt
      end in
    (JS.for_each evs body tab0).1 = Return tt
    ∧ intervals (JS.for_each evs body tab0).2 = intervals tab0).
  { induction evs as [|ev evs IH]; intros tab0 body; [done|].
    simpl. unfold JS.bind.
    assert (Hev : (body ev tab0).1 = Return tt ∧ intervals (body ev tab0).2 = intervals tab0).
    { destruct ev as [processed total|]; simpl.
      - apply onProgress_quiet.
      - js_unfold. case_bool_decide; [apply progress_indicator_tick_quiet | done]. }
    destruct (body ev tab0) as [[[]|e] tab1]; simpl in Hev; destruct Hev as [Hr Hi];
      [|done].
    rewrite <- Hi. apply IH. }
  specialize (Hevents (events run) tab). simpl in Hevents.
  js_unfold.
  destruct (JS.for_each (events run) _ tab) as [[[]|e] tab1]; simpl in *;
    destruct Hevents as [Hr Hi]; [|done].
  by destruct (outcome run).
Qed.

(** C7: however the index update settles, the handler ends with the
    progress display hidden, the indicator interval it started no
    longer running (and no other interval touched), the setting
    enabled and the button reset; an exception of the index update is
    the completion of the handler, reached in that torn-down state. *)
Theorem forceSync_teardown_on_every_exit run tab :
  let result := forceSync_onClick t run tab in
  let started := nextIntervalId tab in
  result.1 = (match outcome run with
              | inl e => Throw e
              | inr _ => Return tt
              end)
  ∧ (∀ el, syncProgressEl result.2 = Some el → el_display el = "none")
  ∧ (∀ txt, syncProgressText result.2 = Some txt → text_display txt = "none")
  ∧ (started ∉ intervals result.2)
  ∧ intervals result.2 = filter (λ n, n ≠ started) (intervals tab)
  ∧ indexVaultDisabled result.2 = false
  ∧ forceSyncButton result.2 = {| buttonText := "Update"; cta := true |}.
Proof.
  intros result started.
  assert (Hgoal :
    result.1 = (match outcome run with inl e => Throw e | inr _ => Return tt end)
    ∧ (∀ el, syncProgressEl result.2 = Some el → el_display el = "none")
    ∧ (∀ txt, syncProgressText result.2 = Some txt → text_display txt = "none")
    ∧ intervals result.2 = filter (λ n, n ≠ started) (intervals tab ++ [started])%list
    ∧ indexVaultDisabled result.2 = false
    ∧ forceSyncButton result.2 = {| buttonText := "Update"; cta := true |}).
  { subst result started.
    unfold forceSync_onClick, JS.try_finally, setInterval, registerInterval,
      clearInterval, setButtonText, setCta, refreshStorageDisplay, update_settings.
    js_unfold. simpl.
    destruct (syncProgressEl tab) as [el0|], (syncProgressText tab) as [txt0|]; simpl.
    all: match goal with
         | |- context [await_updateContentIndex _ ?n ?sync ?tab1] =>
             pose proof (await_updateContentIndex_settles n sync tab1) as [Hr Hi];
             destruct (await_updateContentIndex t n sync tab1) as [r tab2]
         end.
    all: simpl in Hr, Hi; subst r.
    all: destruct (outcome run) as [e|lastSync']; simpl;
      destruct (storageDisplay tab2); simpl; rewrite Hi;
      (split; [done|]);
      (split; [intros el; destruct (syncProgressEl tab2); simpl; by intros [= <-]|]);
      (split; [intros txt; destruct (syncProgressText tab2); simpl; by intros [= <-]|]);
      done. }
  destruct Hgoal as (Hr & Hel & Htxt & Hint & Hdis & Hbtn).
  assert (Hfilter : filter (λ n, n ≠ started) (intervals tab ++ [started])%list
                    = filter (λ n, n ≠ started) (intervals tab)).
  { rewrite filter_app, (filter_cons_False _ started []), filter_nil, app_nil_r; [done|].
    intros Hne. by apply Hne. }
  rewrite Hfilter in Hint.
  repeat split; try done.
  rewrite Hint. intros [Hne _]%list_elem_of_filter. by apply Hne.
Qed.

End ForceSync.

(** The two reports the specification names: 50 of 10 shows the value
    10, and 0 of 0 shows the maximum 1. *)
Lemma onProgress_clamps_display_witness :
  (∃ el, syncProgressEl (onProgress Sample.t 50 10 Sample.tab).2 = Some el
         ∧ el_max el = 10 ∧ el_value el = 10)
  ∧ (∃ el, syncProgressEl (onProgress Sample.t 0 0 Sample.tab).2 = Some el
           ∧ el_max el = 1 ∧ el_value el = 0).
Proof.
  split.
  - destruct (onProgress_clamps_display Sample.t Sample.tab 50 10
                {| el_value := 0; el_max := 1; el_display := "none" |}
                {| textContent := ""; text_display := "none" |})
      as (_ & el & Hel & Hmax & _ & Hvalue & _); [lia | lia | reflexivity | reflexivity |].
    exists el. rewrite Hvalue, Hmax. split; [exact Hel|]. split; reflexivity.
  - destruct (onProgress_clamps_display Sample.t Sample.tab 0 0
                {| el_value := 0; el_max := 1; el_display := "none" |}
                {| textContent := ""; text_display := "none" |})
      as (_ & el & Hel & Hmax & _ & Hvalue & _); [lia | lia | reflexivity | reflexivity |].
    exists el. rewrite Hvalue, Hmax. split; [exact Hel|]. split; reflexivity.
Defined.

(** A run that reports progress, lets the indicator tick and then
    fails: the failure reaches the caller with everything torn down. *)
Example forceSync_failing_run :
  let run := {| events := [Progress 3 10; Tick; Progress 50 10; Tick];
                outcome := inl (Failure "network") |} in
  let result := forceSync_onClick Sample.t run Sample.tab in
  result.1 = Throw (Failure "network")
  ∧ intervals result.2 = []
  ∧ indexVaultDisabled result.2 = false
  ∧ syncProgressEl result.2 = Some {| el_value := 10; el_max := 10; el_display := "none" |}.
Proof. vm_compute. done. Qed.

End SettingsProps.


(** * Further properties *)

(** ** The translator, continued *)

Module I18nMore.
Import I18n I18nProps.

(** Where the loop of [t] returns something other than the key, the loop
    of [hasTranslation] answers [true]. *)
Lemma t_loop_changed key keys :
  ∀ v s, t_loop key v keys = Return s → s ≠ key → hasTranslation_loop v keys = Return true.
Proof.
  induction keys as [|k rest IH]; intros v s Ht Hne.
  - destruct v as [s'|o| |]; simpl in *; congruence.
  - destruct v as [s'|o| |]; simpl in *; try congruence.
    js_unfold. destruct (js_in k o) as [[|]|e]; try congruence.
    destruct (js_get k o) as [v'|e]; try congruence. by apply (IH v' s).
Qed.

(** Without a [__proto__] segment the loop of [hasTranslation] tells
    whether the walk ends at a string. *)
Lemma hasTranslation_loop_decides keys :
  "__proto__" ∉ keys →
  ∀ v, hasTranslation_loop (of_trans v) keys
       = Return (match walk v keys with Some (TStr _) => true | _ => false end).
Proof.
  intros Hk v.
  destruct (hasTranslation_loop_returns keys Hk (of_trans v)) as [b Hb].
  { by destruct v. }
  rewrite Hb. f_equal. destruct b.
  - apply hasTranslation_loop_walk in Hb as [s ->]. done.
  - destruct (walk v keys) as [[s|d]|] eqn:Hw; try done.
    assert (Ht : hasTranslation_loop (of_trans v) keys = Return true)
      by (apply hasTranslation_loop_walk; eauto).
    congruence.
Qed.

Lemma prefix_append_l a b :
  ∀ s, String.prefix (a +:+ b) s = true → String.prefix a s = true.
Proof.
  induction a as [|c a IH]; intros s; [by destruct s|].
  destruct s as [|c' s]; [done|].
  change (String c a +:+ b) with (String c (a +:+ b)).
  cbn [String.prefix]. destruct (ascii_dec c c'); [apply IH | done].
Qed.

Lemma startsWith_zh_CN locale :
  Str.startsWith "zh-CN" locale || Str.startsWith "zh-Hans" locale = true →
  Str.startsWith "zh" locale = true.
Proof.
  unfold Str.startsWith. intros [H|H]%orb_true_iff.
  - by apply (prefix_append_l "zh" "-CN").
  - by apply (prefix_append_l "zh" "-Hans").
Qed.

Section Registry.
Variable zhCN : TranslationDict.

(** X1: a key without a [__proto__] segment is looked up without a
    throw and without a write: [t] returns the string leaf the walk over
    the selected dictionary ends at, and the key itself on every other
    walk; [hasTranslation] answers whether the walk ends at a string. *)
Theorem lookup_without_proto_segment key lang st :
  "__proto__" ∉ Str.split "." key →
  t zhCN key lang st
  = (Return (match walk_key zhCN key lang st with Some (TStr s) => s | _ => key end), st)
  ∧ hasTranslation zhCN key lang st
    = (Return (match walk_key zhCN key lang st with Some (TStr _) => true | _ => false end), st).
Proof.
  intros Hk. split; [by apply t_returns_without_proto_segment|].
  rewrite hasTranslation_run. unfold walk_key. f_equal.
  apply (hasTranslation_loop_decides _ Hk (TDict _)).
Qed.

(** X2: whenever [t] returns a text other than the key it was given,
    [hasTranslation] answers [true] for that key and language. *)
Theorem changed_text_is_a_hit key lang st s :
  (t zhCN key lang st).1 = Return s →
  s ≠ key →
  (hasTranslation zhCN key lang st).1 = Return true.
Proof.
  rewrite t_run, hasTranslation_run. case_bool_decide as Hen; simpl.
  - intros [= ->] Hne. done.
  - rewrite (selected_dict_not_en _ _ _ Hen). apply t_loop_changed.
Qed.

(** X3: ['zh'] is an alias of ['zh-CN']: both functions behave the same
    under either code, for every key and state. *)
Theorem zh_is_alias_of_zh_CN key st :
  t zhCN key (Some zh) st = t zhCN key (Some zh_CN) st
  ∧ hasTranslation zhCN key (Some zh) st = hasTranslation zhCN key (Some zh_CN) st.
Proof. by rewrite !t_run, !hasTranslation_run. Qed.

(** X4: whenever the effective language is English, by override or as
    the current language, [t] returns the key and [hasTranslation] never
    answers [true]. *)
Theorem english_shows_keys key lang st :
  language_of lang st = en →
  t zhCN key lang st = (Return key, st)
  ∧ (hasTranslation zhCN key lang st).1 ≠ Return true.
Proof.
  intros Hen. split.
  - rewrite t_run. by rewrite bool_decide_eq_true_2.
  - rewrite hasTranslation_run, (selected_dict_en _ _ _ Hen). simpl. intros H.
    apply (hasTranslation_loop_walk _ (TDict ∅)) in H as [s Hs].
    rewrite walk_empty_misses in Hs; [done | apply split_nonempty].
Qed.

(** X5: [initI18n] decides by the locale alone, whatever the language
    was before: after it, a call of [t] without override behaves as one
    with override ['zh-CN'] when the locale starts with [zh], and as one
    with override ['en'], returning the key, for every other locale; one
    line is written to the console. *)
Theorem initI18n_selects_by_locale locale st key :
  let st' := (initI18n locale st).2 in
  (initI18n locale st).1 = Return tt
  ∧ t zhCN key None st'
    = t zhCN key (Some (if Str.startsWith "zh" locale then zh_CN else en)) st'
  ∧ length (console st') = S (length (console st)).
Proof.
  unfold initI18n. js_unfold.
  destruct (Str.startsWith "zh-CN" locale || Str.startsWith "zh-Hans" locale) eqn:Hcn; simpl.
  - rewrite (startsWith_zh_CN _ Hcn). rewrite !t_run. simpl.
    by rewrite length_app, Nat.add_1_r.
  - destruct (Str.startsWith "zh" locale); simpl; rewrite !t_run; simpl;
      by rewrite length_app, Nat.add_1_r.
Qed.

(** X6: [setLanguage] takes effect for each of the three codes:
    [getCurrentLanguage] then answers the code set, and a call of [t]
    without override behaves as one with that code as override. *)
Theorem setLanguage_then_current lang st key :
  let st' := (setLanguage zhCN lang st).2 in
  getCurrentLanguage st' = (Return lang, st')
  ∧ t zhCN key None st' = t zhCN key (Some lang) st'.
Proof.
  unfold setLanguage, getCurrentLanguage. rewrite translations_at_total. js_unfold. simpl.
  split; [done|]. by rewrite !t_run.
Qed.

End Registry.

Lemma not_proto_segment_sample : "__proto__" ∉ Str.split "." "settings.section.missing".
Proof. apply (bool_decide_unpack _). vm_compute. exact I. Qed.

Lemma lookup_without_proto_segment_witness :
  ("__proto__" ∉ Str.split "." "settings.section.missing")
  ∧ t Sample.zhCN "settings.section.missing" (Some zh) initial
    = (Return "settings.section.missing", initial)
  ∧ hasTranslation Sample.zhCN "settings.section.missing" (Some zh) initial
    = (Return false, initial).
Proof.
  split; [exact not_proto_segment_sample|].
  apply (lookup_without_proto_segment Sample.zhCN
           "settings.section.missing" (Some zh) initial not_proto_segment_sample).
Defined.

Lemma changed_text_is_a_hit_witness :
  (t Sample.zhCN "settings.section.sync" (Some zh) initial).1 = Return "同步"
  ∧ (hasTranslation Sample.zhCN "settings.section.sync" (Some zh) initial).1 = Return true.
Proof.
  split; [reflexivity|].
  apply (changed_text_is_a_hit Sample.zhCN "settings.section.sync" (Some zh) initial "同步");
    [reflexivity | discriminate].
Defined.

Lemma english_shows_keys_witness :
  language_of None initial = en
  ∧ t Sample.zhCN "settings.section.sync" None initial
    = (Return "settings.section.sync", initial).
Proof.
  split; [reflexivity|].
  apply (english_shows_keys Sample.zhCN "settings.section.sync" None initial). reflexivity.
Defined.

End I18nMore.

(** ** The settings tab, continued *)

Module SettingsMore.
Import Settings SettingsViews SettingsProps.

(** *** Model preference *)

Section Reconciliation.
Variable t : string → string.
Variable trim : string → string.
Variable canConnectToBackend : string → string → BackendConnection.
Variable fetchChatModels : KhojSetting → list ModelOption.
Variable fetchUserServerSettings : KhojSetting → option ServerUserConfig.

Abbreviation refresh := (refreshModelsAndServerPreference t fetchChatModels fetchUserServerSettings)
  (only parsing).
Abbreviation reconciled := (SettingsViews.reconciled fetchChatModels fetchUserServerSettings)
  (only parsing).

(** A refresh returns, stores the reconciled settings, saves them and
    renders the chat-model row from them. *)
Lemma refresh_settles tab :
  (refresh tab).1 = Return tt
  ∧ settings (refresh tab).2 = reconciled (settings tab)
  ∧ saved (refresh tab).2 = reconciled (settings tab)
  ∧ chatModelSetting (refresh tab).2 = rendered_control t (reconciled (settings tab)).
Proof.
  unfold SettingsViews.reconciled, rendered_control. run_handler.
  destruct (connectedToBackend (settings tab)) eqn:Hc; simpl; [|by rewrite Hc].
  destruct (fetchUserServerSettings (settings tab)) as [[[| |n]]|]; simpl;
    try (rewrite Hc; simpl; by destruct (length _ =? 0)%nat).
  destruct (existsb _ _); simpl; rewrite Hc; simpl; by destruct (length _ =? 0)%nat.
Qed.

Lemma reconciled_valid s : selection_valid (reconciled s).
Proof.
  unfold selection_valid, SettingsViews.reconciled.
  destruct (connectedToBackend s); simpl; [|done].
  intros model_id. destruct (server_preference _) as [i|]; [|done].
  destruct (existsb _ _) eqn:He; [|done]. intros [= <-]. by apply some_listed.
Qed.

Lemma rendered_control_offers s : selection_valid s → selection_offered (rendered_control t s).
Proof.
  unfold selection_valid, rendered_control. intros Hv.
  destruct (negb _); [done|]. destruct (_ && _); [done|]. simpl.
  destruct (selectedChatModelId s) as [i|]; simpl; [|by left].
  right. destruct (Hv i eq_refl) as [m [Hm <-]].
  rewrite <- list_fmap_compose. by apply (list_elem_of_fmap_2 (λ model, id model) _ m).
Qed.

(** X7: after a refresh, connected or not, the selected model is [null]
    or the id of one of the stored models, the chat-model row is the one
    rendered from the stored settings, and a dropdown shows one of its
    options. *)
Theorem refresh_leaves_valid_selection tab :
  let tab' := (refresh tab).2 in
  selection_valid (settings tab')
  ∧ chatModelSetting tab' = rendered_control t (settings tab')
  ∧ selection_offered (chatModelSetting tab').
Proof.
  destruct (refresh_settles tab) as (_ & Hs & _ & Hc). simpl.
  rewrite Hs, Hc. split; [apply reconciled_valid|]. split; [done|].
  apply rendered_control_offers, reconciled_valid.
Qed.

(** X8: a refresh repeated while the backend answers the same changes
    nothing: settings, saved settings and chat-model row stay as the
    first refresh left them. *)
Theorem refresh_is_idempotent tab :
  let tab' := (refresh tab).2 in
  fetchChatModels (settings tab') = fetchChatModels (settings tab) →
  fetchUserServerSettings (settings tab') = fetchUserServerSettings (settings tab) →
  settings (refresh tab').2 = settings tab'
  ∧ saved (refresh tab').2 = saved tab'
  ∧ chatModelSetting (refresh tab').2 = chatModelSetting tab'.
Proof.
  intros tab' Hm Hp.
  destruct (refresh_settles tab) as (_ & Hs & Hsaved & Hc).
  destruct (refresh_settles tab') as (_ & Hs' & Hsaved' & Hc').
  fold tab' in Hs, Hsaved, Hc.
  assert (Hfix : reconciled (settings tab') = settings tab').
  { unfold SettingsViews.reconciled at 1. rewrite Hm, Hp, Hs. unfold SettingsViews.reconciled.
    by destruct (connectedToBackend (settings tab)) eqn:Hcon; simpl; rewrite ?Hcon. }
  by rewrite Hs', Hsaved', Hc', Hfix, Hsaved, Hc, Hs.
Qed.

Lemma refresh_keeps_header tab :
  backendStatusMessage (refresh tab).2 = backendStatusMessage tab
  ∧ connectHeaderTitle (refresh tab).2 = connectHeaderTitle tab
  ∧ backendStatusIcon (refresh tab).2 = backendStatusIcon tab.
Proof.
  run_handler.
  destruct (connectedToBackend (settings tab)) eqn:Hc; simpl; [|by rewrite Hc].
  destruct (fetchUserServerSettings (settings tab)) as [[[| |n]]|]; simpl;
    try (rewrite Hc; simpl; by destruct (length _ =? 0)%nat).
  destruct (existsb _ _); simpl; rewrite Hc; simpl; by destruct (length _ =? 0)%nat.
Qed.

Lemma reconciled_keeps s :
  khojUrl (reconciled s) = khojUrl s
  ∧ khojApiKey (reconciled s) = khojApiKey s
  ∧ connectedToBackend (reconciled s) = connectedToBackend s
  ∧ userInfo (reconciled s) = userInfo s
  ∧ connectStatusIcon (reconciled s) = connectStatusIcon s.
Proof. unfold SettingsViews.reconciled. by destruct (connectedToBackend s) eqn:Hc. Qed.

(** What a credential edit makes of the tab once the edited field is
    stored: the probe answer is recorded and shown, then a refresh runs. *)
Lemma reconnect_records_probe tab :
  let answer := canConnectToBackend (khojUrl (settings tab)) (khojApiKey (settings tab)) in
  let tab' := (reconnect t canConnectToBackend fetchChatModels fetchUserServerSettings tab).2 in
  khojUrl (settings tab') = khojUrl (settings tab)
  ∧ khojApiKey (settings tab') = khojApiKey (settings tab)
  ∧ connectedToBackend (settings tab') = connected answer
  ∧ userInfo (settings tab') = connection_userInfo answer
  ∧ backendStatusMessage tab' = statusMessage answer
  ∧ connectHeaderTitle tab' = statusMessage answer
  ∧ backendStatusIcon tab' = connectStatusIcon (settings tab')
  ∧ saved tab' = settings tab'.
Proof.
  unfold reconnect, saveSettings, update_settings. js_unfold.
  cbn -[refreshModelsAndServerPreference].
  destruct (connected (canConnectToBackend _ _)) eqn:Hc;
    cbn -[refreshModelsAndServerPreference].
  all: match goal with
       | |- context [refreshModelsAndServerPreference _ _ _ ?x] => set (start := x)
       end.
  all: destruct (refresh_settles start) as (_ & Hs & Hsaved & _).
  all: destruct (refresh_keeps_header start) as (Hm & Ht & Hi).
  all: destruct (reconciled_keeps (settings start)) as (Hurl & Hkey & Hcon & Huser & Hicon).
  all: rewrite Hs, Hsaved, Hm, Ht, Hi, Hurl, Hkey, Hcon, Huser, Hicon.
  all: subst start; simpl; by rewrite ?Hc.
Qed.

(** X9: an edit of the API key stores the trimmed key, an edit of the
    URL stores the trimmed value without its trailing slash; either edit
    leaves the other field alone, records the answer of the connectivity
    probe for the new pair (connected flag, user, status message), shows
    the message as header title and the icon that fits the stored
    settings, and ends with everything saved. *)
Theorem credential_edit_records_probe tab value :
  (let answer := canConnectToBackend (khojUrl (settings tab)) (trim value) in
   let tab' := (apiKey_onChange t trim canConnectToBackend fetchChatModels
                  fetchUserServerSettings value tab).2 in
   khojUrl (settings tab') = khojUrl (settings tab)
   ∧ khojApiKey (settings tab') = trim value
   ∧ connectedToBackend (settings tab') = connected answer
   ∧ userInfo (settings tab') = connection_userInfo answer
   ∧ backendStatusMessage tab' = statusMessage answer
   ∧ connectHeaderTitle tab' = statusMessage answer
   ∧ backendStatusIcon tab' = connectStatusIcon (settings tab')
   ∧ saved tab' = settings tab')
  ∧ (let answer := canConnectToBackend (strip_trailing_slash (trim value))
                     (khojApiKey (settings tab)) in
     let tab' := (url_onChange t trim canConnectToBackend fetchChatModels
                    fetchUserServerSettings value tab).2 in
     khojUrl (settings tab') = strip_trailing_slash (trim value)
     ∧ khojApiKey (settings tab') = khojApiKey (settings tab)
     ∧ connectedToBackend (settings tab') = connected answer
     ∧ userInfo (settings tab') = connection_userInfo answer
     ∧ backendStatusMessage tab' = statusMessage answer
     ∧ connectHeaderTitle tab' = statusMessage answer
     ∧ backendStatusIcon tab' = connectStatusIcon (settings tab')
     ∧ saved tab' = settings tab').
Proof.
  split.
  - unfold apiKey_onChange, update_settings. js_unfold. simpl.
    apply (reconnect_records_probe
             (set_settings (set_khojApiKey (trim value) (settings tab)) tab)).
  - unfold url_onChange, update_settings. js_unfold. simpl.
    apply (reconnect_records_probe
             (set_settings (set_khojUrl (strip_trailing_slash (trim value)) (settings tab)) tab)).
Qed.

End Reconciliation.

Lemma append_not_empty s c : s +:+ String c "" ≠ "".
Proof. by destruct s. Qed.

(** X10: the URL loses exactly one trailing slash: a value ending in
    [/] is stored without that last character (so of two trailing
    slashes one stays), and the stored value is always the value itself
    or the value short of one final [/]. *)
Theorem strip_trailing_slash_drops_one s :
  strip_trailing_slash (s +:+ "/") = s
  ∧ (strip_trailing_slash s = s ∨ s = strip_trailing_slash s +:+ "/").
Proof.
  split.
  - induction s as [|c s IH]; [done|].
    change (String c s +:+ "/") with (String c (s +:+ "/")). simpl.
    destruct (s +:+ "/") eqn:Hs; [by apply append_not_empty in Hs|].
    by rewrite IH.
  - induction s as [|c s IH]; [by left|].
    destruct s as [|c' s].
    + simpl. destruct (Ascii.eqb c "/") eqn:Hc; [|by left].
      apply Ascii.eqb_eq in Hc as ->. by right.
    + change (strip_trailing_slash (String c (String c' s)))
        with (String c (strip_trailing_slash (String c' s))).
      destruct IH as [-> | IH]; [by left|]. right.
      change (String c (strip_trailing_slash (String c' s)) +:+ "/")
        with (String c (strip_trailing_slash (String c' s) +:+ "/")).
      by rewrite <- IH.
Qed.

(** *** Include and exclude folders *)

Section Folders.
Variable t : string → string.

(** The four handlers, case by case: stored lists, saved settings and
    rendered lists afterwards. *)
Lemma include_add_noop folder tab :
  includes folder (syncFolders (settings tab)) = true →
  includeFolder_onChoose t folder tab = (Return tt, tab).
Proof. intros Hin. run_handler. by rewrite Hin. Qed.

Lemma include_add_effect folder tab :
  includes folder (syncFolders (settings tab)) = false →
  let s' := set_syncFolders (syncFolders (settings tab) ++ [folder]) (settings tab) in
  let tab' := (includeFolder_onChoose t folder tab).2 in
  settings tab' = s' ∧ saved tab' = s'
  ∧ includeFolderList tab' = updateFolderList (syncFolders s') (t "settings.includeFolders.empty")
  ∧ excludeFolderList tab' = excludeFolderList tab
  ∧ notices tab' = notices tab.
Proof. intros Hin. run_handler. rewrite Hin. simpl. by destruct (storageDisplay tab). Qed.

Lemma exclude_add_noop folder tab :
  folder ≠ "" →
  includes folder (excludeFolders (settings tab)) = true →
  excludeFolder_onChoose t folder tab = (Return tt, tab).
Proof.
  intros Hne Hin. run_handler. rewrite (bool_decide_eq_false_2 _ Hne). simpl. by rewrite Hin.
Qed.

Lemma exclude_add_effect folder tab :
  folder ≠ "" →
  includes folder (excludeFolders (settings tab)) = false →
  let s' := set_excludeFolders (excludeFolders (settings tab) ++ [folder]) (settings tab) in
  let tab' := (excludeFolder_onChoose t folder tab).2 in
  settings tab' = s' ∧ saved tab' = s'
  ∧ excludeFolderList tab' = updateFolderList (excludeFolders s') (t "settings.excludeFolders.empty")
  ∧ includeFolderList tab' = includeFolderList tab
  ∧ notices tab' = notices tab.
Proof.
  intros Hne Hin. run_handler. rewrite (bool_decide_eq_false_2 _ Hne). simpl.
  rewrite Hin. simpl. by destruct (storageDisplay tab).
Qed.

Lemma exclude_root_effect tab :
  let tab' := (excludeFolder_onChoose t "" tab).2 in
  settings tab' = settings tab ∧ saved tab' = saved tab
  ∧ excludeFolderList tab' = excludeFolderList tab
  ∧ includeFolderList tab' = includeFolderList tab.
Proof. done. Qed.

Lemma include_remove_effect folder tab :
  let s' := set_syncFolders (filter (λ f, f ≠ folder) (syncFolders (settings tab))) (settings tab) in
  let tab' := (includeFolder_onRemove t folder tab).2 in
  settings tab' = s' ∧ saved tab' = s'
  ∧ includeFolderList tab' = updateFolderList (syncFolders s') (t "settings.includeFolders.empty")
  ∧ excludeFolderList tab' = excludeFolderList tab.
Proof. run_handler. by destruct (storageDisplay tab). Qed.

Lemma exclude_remove_effect folder tab :
  let s' := set_excludeFolders (filter (λ f, f ≠ folder) (excludeFolders (settings tab)))
              (settings tab) in
  let tab' := (excludeFolder_onRemove t folder tab).2 in
  settings tab' = s' ∧ saved tab' = s'
  ∧ excludeFolderList tab' = updateFolderList (excludeFolders s') (t "settings.excludeFolders.empty")
  ∧ includeFolderList tab' = includeFolderList tab.
Proof. run_handler. by destruct (storageDisplay tab). Qed.

(** What every single operation keeps, every sequence keeps. *)
Lemma run_ops_invariant (P : Tab → Prop) :
  (∀ op tab, P tab → P (apply_op t op tab).2) →
  ∀ ops tab, P tab → P (run_ops t ops tab).2.
Proof.
  intros Hstep. induction ops as [|op rest IH]; intros tab HP; [done|].
  rewrite run_ops_cons. by apply IH, Hstep.
Qed.

Lemma includes_false folder folders : includes folder folders = false ↔ folder ∉ folders.
Proof. unfold includes. apply bool_decide_eq_false. Qed.

Lemma includes_true folder folders : includes folder folders = true ↔ folder ∈ folders.
Proof. unfold includes. apply bool_decide_eq_true. Qed.

Lemma NoDup_push (folder : string) (folders : list string) :
  NoDup folders → folder ∉ folders → NoDup (folders ++ [folder]).
Proof.
  intros Hnd Hnot. apply NoDup_app. split; [done|]. split.
  - intros x Hx ->%list_elem_of_singleton. done.
  - apply NoDup_singleton.
Qed.

(** X11: neither list ever comes to hold a folder twice: lists without
    duplicates stay so through every sequence of add and remove
    operations. *)
Theorem folder_lists_stay_duplicate_free ops tab :
  NoDup (syncFolders (settings tab)) →
  NoDup (excludeFolders (settings tab)) →
  NoDup (syncFolders (settings (run_ops t ops tab).2))
  ∧ NoDup (excludeFolders (settings (run_ops t ops tab).2)).
Proof.
  intros Hs He.
  apply (run_ops_invariant
           (λ tab, NoDup (syncFolders (settings tab)) ∧ NoDup (excludeFolders (settings tab))));
    [|done].
  clear. intros op tab [Hs He]. destruct op as [f|f|f|f]; unfold apply_op.
  - rewrite includeFolder_onChoose_settings.
    destruct (includes _ _) eqn:Hin; [done|]. simpl. split; [|done].
    by apply NoDup_push, includes_false.
  - rewrite includeFolder_onRemove_settings. simpl. split; [|done]. by apply NoDup_filter.
  - rewrite excludeFolder_onChoose_settings.
    case_bool_decide; simpl; [done|].
    destruct (includes _ _) eqn:Hin; [done|]. simpl. split; [done|].
    by apply NoDup_push, includes_false.
  - rewrite excludeFolder_onRemove_settings. simpl. split; [done|]. by apply NoDup_filter.
Qed.

(** X12: the vault root never gets into the exclude list: an exclude
    list without [""] is without it after every sequence of add and
    remove operations. *)
Theorem root_never_excluded ops tab :
  "" ∉ excludeFolders (settings tab) →
  "" ∉ excludeFolders (settings (run_ops t ops tab).2).
Proof.
  apply (run_ops_invariant (λ tab, "" ∉ excludeFolders (settings tab))).
  clear. intros op tab Hroot. destruct op as [f|f|f|f]; unfold apply_op.
  - rewrite includeFolder_onChoose_settings. by destruct (includes _ _).
  - by rewrite includeFolder_onRemove_settings.
  - rewrite excludeFolder_onChoose_settings.
    case_bool_decide as Hf; simpl; [done|]. destruct (includes _ _); [done|]. simpl.
    intros [Hin | Hin%list_elem_of_singleton]%elem_of_app; [done | by apply Hf].
  - rewrite excludeFolder_onRemove_settings. simpl.
    intros [_ Hin]%list_elem_of_filter. done.
Qed.

(** X13: once everything is saved and both rendered folder lists show
    the stored lists, this stays so through every sequence of add and
    remove operations: no operation leaves an unsaved or unshown
    change. *)
Theorem folder_views_stay_current ops tab :
  folders_current t tab → folders_current t (run_ops t ops tab).2.
Proof.
  apply (run_ops_invariant (folders_current t)).
  clear. unfold folders_current. intros op tab (Hsaved & Hinc & Hexc).
  destruct op as [f|f|f|f]; unfold apply_op.
  - destruct (includes f (syncFolders (settings tab))) eqn:Hin.
    + by rewrite (include_add_noop f tab Hin).
    + destruct (include_add_effect f tab Hin) as (-> & -> & -> & -> & _). simpl.
      by rewrite Hexc.
  - destruct (include_remove_effect f tab) as (-> & -> & -> & ->). simpl. by rewrite Hexc.
  - destruct (decide (f = "")) as [->|Hne].
    + by destruct (exclude_root_effect tab) as (-> & -> & -> & ->).
    + destruct (includes f (excludeFolders (settings tab))) eqn:Hin.
      * by rewrite (exclude_add_noop f tab Hne Hin).
      * destruct (exclude_add_effect f tab Hne Hin) as (-> & -> & -> & -> & _). simpl.
        by rewrite Hinc.
  - destruct (exclude_remove_effect f tab) as (-> & -> & -> & ->). simpl. by rewrite Hinc.
Qed.

(** X14: the two lists are handled apart: an operation on the include
    list changes no setting but [syncFolders], an operation on the
    exclude list none but [excludeFolders]. *)
Theorem folder_operation_touches_one_list op tab :
  let s := settings tab in
  let s' := settings (apply_op t op tab).2 in
  if on_include op
  then s' = set_syncFolders (syncFolders s') s
  else s' = set_excludeFolders (excludeFolders s') s.
Proof.
  destruct op as [f|f|f|f]; unfold apply_op, on_include; cbv zeta.
  - rewrite includeFolder_onChoose_settings. destruct (includes _ _); [|done].
    by destruct (settings tab).
  - by rewrite includeFolder_onRemove_settings.
  - rewrite excludeFolder_onChoose_settings. destruct (_ || _); [|done].
    by destruct (settings tab).
  - by rewrite excludeFolder_onRemove_settings.
Qed.

(** X15: adding is idempotent: choosing a folder for inclusion a second
    time, or a folder other than the root for exclusion a second time,
    changes nothing at all, not even what is shown. *)
Theorem adding_twice_is_adding_once folder tab :
  includeFolder_onChoose t folder (includeFolder_onChoose t folder tab).2
  = (Return tt, (includeFolder_onChoose t folder tab).2)
  ∧ (folder ≠ "" →
     excludeFolder_onChoose t folder (excludeFolder_onChoose t folder tab).2
     = (Return tt, (excludeFolder_onChoose t folder tab).2)).
Proof.
  split.
  - apply include_add_noop, includes_true. rewrite includeFolder_onChoose_settings.
    destruct (includes _ _) eqn:Hin; [by apply includes_true|]. simpl.
    apply elem_of_app. right. by apply list_elem_of_singleton.
  - intros Hne. apply exclude_add_noop; [done|]. apply includes_true.
    rewrite excludeFolder_onChoose_settings, (bool_decide_eq_false_2 _ Hne). simpl.
    destruct (includes _ _) eqn:Hin; [by apply includes_true|]. simpl.
    apply elem_of_app. right. by apply list_elem_of_singleton.
Qed.

Lemma filter_absent (folder : string) (folders : list string) :
  folder ∉ folders → filter (λ f, f ≠ folder) folders = folders.
Proof.
  induction folders as [|g rest IH]; [done|].
  intros [Hne Hrest]%not_elem_of_cons.
  rewrite filter_cons_True by congruence. by rewrite IH.
Qed.

(** X16: removing a folder takes it off the list and leaves every other
    entry in its place; removing a folder that is not on the list leaves
    the list as it is; and a folder added to a list that did not hold it
    and then removed leaves the list as it was before. The same on the
    exclude side. *)
Theorem removing_undoes_adding folder tab :
  let sync := syncFolders (settings tab) in
  let exclude := excludeFolders (settings tab) in
  ((folder ∉ syncFolders (settings (includeFolder_onRemove t folder tab).2))
   ∧ (∀ other, other ≠ folder →
        (other ∈ syncFolders (settings (includeFolder_onRemove t folder tab).2) ↔ other ∈ sync))
   ∧ (folder ∉ sync →
        syncFolders (settings (includeFolder_onRemove t folder tab).2) = sync
        ∧ syncFolders (settings (includeFolder_onRemove t folder
                                   (includeFolder_onChoose t folder tab).2).2) = sync))
  ∧ ((folder ∉ excludeFolders (settings (excludeFolder_onRemove t folder tab).2))
     ∧ (∀ other, other ≠ folder →
          (other ∈ excludeFolders (settings (excludeFolder_onRemove t folder tab).2)
           ↔ other ∈ exclude))
     ∧ (folder ∉ exclude →
          excludeFolders (settings (excludeFolder_onRemove t folder tab).2) = exclude
          ∧ excludeFolders (settings (excludeFolder_onRemove t folder
                                        (excludeFolder_onChoose t folder tab).2).2) = exclude)).
Proof.
  intros sync exclude. subst sync exclude. split.
  - rewrite !includeFolder_onRemove_settings. simpl. split; [|split].
    + intros [Hne _]%list_elem_of_filter. by apply Hne.
    + intros other Hne. rewrite list_elem_of_filter. split; [by intros [_ ?] | done].
    + intros Hnot. split; [by apply filter_absent|].
      rewrite includeFolder_onChoose_settings.
      rewrite (proj2 (includes_false _ _) Hnot). simpl.
      rewrite filter_app, (filter_cons_False _ folder []), filter_nil, app_nil_r;
        [by apply filter_absent | by intros Hne; apply Hne].
  - rewrite !excludeFolder_onRemove_settings. simpl. split; [|split].
    + intros [Hne _]%list_elem_of_filter. by apply Hne.
    + intros other Hne. rewrite list_elem_of_filter. split; [by intros [_ ?] | done].
    + intros Hnot. split; [by apply filter_absent|].
      rewrite excludeFolder_onChoose_settings.
      rewrite (proj2 (includes_false _ _) Hnot), orb_false_r.
      case_bool_decide; simpl; [by apply filter_absent|].
      rewrite filter_app, (filter_cons_False _ folder []), filter_nil, app_nil_r;
        [by apply filter_absent | by intros Hne; apply Hne].
Qed.

End Folders.

(** *** Force sync *)

Lemma prefix_append p : ∀ rest, String.prefix p (p +:+ rest) = true.
Proof.
  induction p as [|c p IH]; intros rest; [by destruct rest|].
  change (String c p +:+ rest) with (String c (p +:+ rest)). cbn [String.prefix].
  destruct (ascii_dec c c); [apply IH | done].
Qed.

Lemma substring_all s : String.substring 0 (String.length s) s = s.
Proof. induction s as [|c s IH]; [done|]. simpl. by rewrite IH. Qed.

Lemma substring_after p : ∀ rest,
  String.substring (String.length p) (String.length (p +:+ rest) - String.length p) (p +:+ rest)
  = rest.
Proof.
  induction p as [|c p IH]; intros rest.
  - simpl. rewrite Nat.sub_0_r. apply substring_all.
  - change (String c p +:+ rest) with (String c (p +:+ rest)). simpl. apply IH.
Qed.

(** Cutting a leading [p] off [p +:+ rest] leaves [rest]. *)
Lemma replace_leading p rest : Str.replace p "" (p +:+ rest) = rest.
Proof.
  assert (Hunfold : ∀ s, Str.replace p "" s
    = if String.prefix p s
      then "" +:+ String.substring (String.length p) (String.length s - String.length p) s
      else match s with
           | EmptyString => EmptyString
           | String c s' => String c (Str.replace p "" s')
           end) by (by intros []).
  rewrite Hunfold, prefix_append. simpl. apply substring_after.
Qed.

Lemma indexOf_absent x (a : list string) : x ∉ a → Str.indexOf x a = -1.
Proof.
  induction a as [|y rest IH]; [done|]. intros [Hne Hrest]%not_elem_of_cons. simpl.
  rewrite bool_decide_eq_false_2 by congruence. by rewrite (IH Hrest).
Qed.

Section ForceSync.
Variable t : string → string.

Lemma onProgress_keeps_settings processed total tab :
  (onProgress t processed total tab).1 = Return tt
  ∧ settings (onProgress t processed total tab).2 = settings tab
  ∧ saved (onProgress t processed total tab).2 = saved tab.
Proof. run_handler. by destruct (syncProgressEl tab), (syncProgressText tab). Qed.

Lemma progress_indicator_tick_keeps_settings tab :
  (progress_indicator_tick t tab).1 = Return tt
  ∧ settings (progress_indicator_tick t tab).2 = settings tab
  ∧ saved (progress_indicator_tick t tab).2 = saved tab.
Proof.
  unfold progress_indicator_tick, setButtonText. js_unfold.
  by destruct (Str.startsWith _ _).
Qed.

(** While the index update runs, nothing writes the settings. *)
Lemma await_updateContentIndex_keeps_settings progress_indicator run tab :
  settings (await_updateContentIndex t progress_indicator run tab).2 = settings tab
  ∧ saved (await_updateContentIndex t progress_indicator run tab).2 = saved tab.
Proof.
  unfold await_updateContentIndex.
  assert (Hevents : ∀ evs tab0,
    let body := λ event : SyncEvent,
      match event with
      | Progress processed total => onProgress t processed total
      | Tick =>
          running ← JS.gets intervals;
          if bool_decide (progress_indicator ∈ running)
          then progress_indicator_tick t else mret tt
      end in
    (JS.for_each evs body tab0).1 = Return tt
    ∧ settings (JS.for_each evs body tab0).2 = settings tab0
    ∧ saved (JS.for_each evs body tab0).2 = saved tab0).
  { induction evs as [|ev evs IH]; intros tab0 body; [done|].
    simpl. unfold JS.bind.
    assert (Hev : (body ev tab0).1 = Return tt
                  ∧ settings (body ev tab0).2 = settings tab0
                  ∧ saved (body ev tab0).2 = saved tab0).
    { destruct ev as [processed total|]; simpl.
      - apply onProgress_keeps_settings.
      - js_unfold. case_bool_decide; [apply progress_indicator_tick_keeps_settings | done]. }
    destruct (body ev tab0) as [[[]|e] tab1]; simpl in Hev; destruct Hev as (Hr & Hs & Hsaved);
      [|done].
    rewrite <- Hs, <- Hsaved. apply IH. }
  specialize (Hevents (events run) tab). simpl in Hevents.
  js_unfold.
  destruct (JS.for_each (events run) _ tab) as [[[]|e] tab1]; simpl in *;
    destruct Hevents as (Hr & Hs & Hsaved); [|done].
  by destruct (outcome run).
Qed.

(** X17: a force sync stores the [lastSync] map the index update
    returns and changes no other setting; when the index update throws,
    the settings stay as they were. Either way the handler saves
    nothing: what [saveSettings] last wrote is what it was before. *)
Theorem forceSync_stores_lastSync_unsaved run tab :
  let result := forceSync_onClick t run tab in
  settings result.2 = (match outcome run with
                       | inl _ => settings tab
                       | inr lastSync' => set_lastSync lastSync' (settings tab)
                       end)
  ∧ saved result.2 = saved tab.
Proof.
  unfold forceSync_onClick, JS.try_finally, setInterval, registerInterval,
    clearInterval, setButtonText, setCta, refreshStorageDisplay, update_settings.
  js_unfold. simpl.
  destruct (syncProgressEl tab) as [el0|], (syncProgressText tab) as [txt0|]; simpl.
  all: match goal with
       | |- context [await_updateContentIndex _ ?n ?sync ?tab1] =>
           pose proof (await_updateContentIndex_keeps_settings n sync tab1) as [Hs Hsaved];
           pose proof (await_updateContentIndex_settles t n sync tab1) as [Hr _];
           destruct (await_updateContentIndex t n sync tab1) as [r tab2]
       end.
  all: simpl in Hr, Hs, Hsaved; subst r.
  all: destruct (outcome run) as [e|lastSync']; simpl;
    destruct (storageDisplay tab2); simpl; by rewrite Hs, Hsaved.
Qed.

(** X18: a progress report that finds one of the two progress elements
    missing from the document changes nothing and does not throw. *)
Theorem onProgress_without_elements processed total tab :
  syncProgressEl tab = None ∨ syncProgressText tab = None →
  onProgress t processed total tab = (Return tt, tab).
Proof.
  intros [H|H]; run_handler; rewrite H; [done|]. by destruct (syncProgressEl tab).
Qed.

(** X19: the indicator walks the eight moon phases in a circle: a
    button text made of the updating prefix and phase [i] becomes the
    prefix and phase [i + 1], phase 0 after phase 7; after the prefix
    alone or with anything that is no phase comes phase 0; a text that
    does not start with the prefix is not touched. The call-to-action
    flag never changes. *)
Theorem progress_indicator_cycles tab :
  let updatingPrefix := t "settings.forceSync.button.updating" +:+ " " in
  let text := buttonText (forceSyncButton tab) in
  let tab' := (progress_indicator_tick t tab).2 in
  (∀ i phase, phases !! i = Some phase → text = updatingPrefix +:+ phase →
     forceSyncButton tab'
     = {| buttonText := updatingPrefix +:+ default "" (phases !! ((i + 1) `mod` 8)%nat);
          cta := cta (forceSyncButton tab) |})
  ∧ (∀ rest, rest ∉ phases → text = updatingPrefix +:+ rest →
       forceSyncButton tab'
       = {| buttonText := updatingPrefix +:+ default "" (phases !! 0%nat);
            cta := cta (forceSyncButton tab) |})
  ∧ (Str.startsWith updatingPrefix text = false → tab' = tab).
Proof.
  intros updatingPrefix text tab'. subst tab' text.
  unfold progress_indicator_tick, setButtonText. js_unfold. fold updatingPrefix.
  split; [|split].
  - intros i phase Hi ->. unfold Str.startsWith.
    rewrite prefix_append, replace_leading. simpl.
    do 8 (destruct i as [|i]; [injection Hi as <-; reflexivity|]).
    by destruct i.
  - intros rest Hrest ->. unfold Str.startsWith.
    rewrite prefix_append, replace_leading, (indexOf_absent _ _ Hrest). reflexivity.
  - by intros ->.
Qed.

End ForceSync.

Lemma refresh_is_idempotent_witness :
  let refresh := refreshModelsAndServerPreference Sample.t Sample.fetchChatModels
                   Sample.fetchUserServerSettings_2 in
  selectedChatModelId (settings (refresh Sample.connected_tab).2) = Some "2"
  ∧ settings (refresh (refresh Sample.connected_tab).2).2
    = settings (refresh Sample.connected_tab).2.
Proof.
  intros refresh. split; [reflexivity|].
  apply (refresh_is_idempotent Sample.t Sample.fetchChatModels
           Sample.fetchUserServerSettings_2 Sample.connected_tab); reflexivity.
Defined.

Lemma folder_lists_stay_duplicate_free_witness :
  let ops := [AddInclude "notes"; AddInclude "notes"; AddExclude "drafts"; RemoveInclude "x"] in
  syncFolders (settings (run_ops Sample.t ops Sample.tab).2) = ["notes"]
  ∧ NoDup (syncFolders (settings (run_ops Sample.t ops Sample.tab).2)).
Proof.
  intros ops. split; [reflexivity|].
  apply (folder_lists_stay_duplicate_free Sample.t ops Sample.tab); apply NoDup_nil_2.
Defined.

Lemma root_never_excluded_witness :
  let ops := [AddExclude ""; AddExclude "drafts"; AddInclude ""] in
  excludeFolders (settings (run_ops Sample.t ops Sample.tab).2) = ["drafts"]
  ∧ ("" ∉ excludeFolders (settings (run_ops Sample.t ops Sample.tab).2)).
Proof.
  intros ops. split; [reflexivity|].
  apply (root_never_excluded Sample.t ops Sample.tab). apply not_elem_of_nil.
Defined.

Lemma folder_views_stay_current_witness :
  let ops := [AddInclude "notes"; AddExclude "drafts"; RemoveInclude "notes"] in
  folders_current Sample.t MoreSamples.rendered_tab
  ∧ folders_current Sample.t (run_ops Sample.t ops MoreSamples.rendered_tab).2.
Proof.
  intros ops.
  assert (Hstart : folders_current Sample.t MoreSamples.rendered_tab)
    by (repeat split; reflexivity).
  split; [exact Hstart|].
  apply (folder_views_stay_current Sample.t ops MoreSamples.rendered_tab Hstart).
Defined.

Lemma adding_twice_is_adding_once_witness :
  "drafts" ≠ ""
  ∧ excludeFolders
      (settings (excludeFolder_onChoose Sample.t "drafts"
                   (excludeFolder_onChoose Sample.t "drafts" Sample.tab).2).2) = ["drafts"].
Proof.
  split; [discriminate|].
  destruct (adding_twice_is_adding_once Sample.t "drafts" Sample.tab) as [_ Hexclude].
  rewrite Hexclude; [reflexivity | discriminate].
Defined.

Lemma removing_undoes_adding_witness :
  ("notes" ∉ syncFolders (settings Sample.tab))
  ∧ syncFolders (settings (includeFolder_onRemove Sample.t "notes"
                             (includeFolder_onChoose Sample.t "notes" Sample.tab).2).2)
    = syncFolders (settings Sample.tab).
Proof.
  assert (Hnot : "notes" ∉ syncFolders (settings Sample.tab)) by apply not_elem_of_nil.
  split; [exact Hnot|].
  destruct (removing_undoes_adding Sample.t "notes" Sample.tab) as [(_ & _ & Hround) _].
  apply (Hround Hnot).
Defined.

Lemma onProgress_without_elements_witness :
  syncProgressEl MoreSamples.closed_tab = None
  ∧ onProgress Sample.t 3 10 MoreSamples.closed_tab = (Return tt, MoreSamples.closed_tab).
Proof.
  split; [reflexivity|].
  apply (onProgress_without_elements Sample.t 3 10 MoreSamples.closed_tab).
  left. reflexivity.
Defined.

Lemma progress_indicator_cycles_witness :
  buttonText (forceSyncButton (progress_indicator_tick Sample.t MoreSamples.syncing_tab).2)
  = (Sample.t "settings.forceSync.button.updating" +:+ " ") +:+ default "" (phases !! 0%nat).
Proof.
  destruct (progress_indicator_cycles Sample.t MoreSamples.syncing_tab) as [Hcycle _].
  rewrite (Hcycle 7%nat (default "" (phases !! 7%nat))); reflexivity.
Defined.

End SettingsMore.

(** ** The folder suggestions *)

Module FolderSuggestMore.
Import FolderSuggestModal.

Lemma set_add_elem (x y : string) (folders : list string) :
  x ∈ set_add y folders ↔ x = y ∨ x ∈ folders.
Proof.
  unfold set_add. case_bool_decide as Hin.
  - split; [by right | by intros [->|]].
  - rewrite elem_of_app, list_elem_of_singleton. tauto.
Qed.

Lemma set_add_NoDup (y : string) (folders : list string) :
  NoDup folders → NoDup (set_add y folders).
Proof.
  intros Hnd. unfold set_add. case_bool_decide as Hin; [done|].
  apply NoDup_app. split; [done|]. split; [|apply NoDup_singleton].
  by intros x Hx ->%list_elem_of_singleton.
Qed.

Lemma lastIndexOf_bounds c s :
  if includes_char c s
  then 0 ≤ lastIndexOf c s < Z.of_nat (String.length s)
  else lastIndexOf c s = -1.
Proof.
  induction s as [|a s IH]; [done|].
  cbn [includes_char lastIndexOf String.length].
  destruct (includes_char c s).
  - rewrite orb_true_r. rewrite bool_decide_eq_false_2 by lia. lia.
  - rewrite orb_false_r, IH. rewrite bool_decide_eq_true_2 by done.
    destruct (Ascii.eqb a c); lia.
Qed.

Lemma length_substring_le n : ∀ s, (String.length (String.substring 0 n s) ≤ n)%nat.
Proof.
  induction n as [|n IH]; intros [|c s]; simpl; try lia.
  specialize (IH s). lia.
Qed.

(** A round of the loop shortens [parent]. *)
Lemma parent_shorter p :
  includes_char "/" p = true → (String.length (parent_of p) < String.length p)%nat.
Proof.
  intros Hin. pose proof (lastIndexOf_bounds "/" p) as Hb. rewrite Hin in Hb.
  unfold parent_of. pose proof (length_substring_le (Z.to_nat (lastIndexOf "/" p)) p). lia.
Qed.

Lemma above_inv f p :
  above f p ↔ f = p ∨ (includes_char "/" p = true ∧ above f (parent_of p)).
Proof.
  split.
  - intros [|Hin Hup]; [by left | by right].
  - intros [->|[Hin Hup]]; [apply above_self | by apply above_step].
Qed.

(** With fuel for every round, the loop adds exactly the folders above
    [parent]. *)
Lemma add_parents_elem x fuel :
  ∀ parent folders,
    (String.length parent ≤ fuel)%nat →
    x ∈ add_parents fuel parent folders
    ↔ x ∈ folders ∨ (includes_char "/" parent = true ∧ above x (parent_of parent)).
Proof.
  induction fuel as [|fuel IH]; intros parent folders Hfuel.
  - destruct parent; [|simpl in Hfuel; lia]. simpl. split; [by left | by intros [|[? _]]].
  - cbn [add_parents]. destruct (includes_char "/" parent) eqn:Hin.
    + pose proof (parent_shorter parent Hin).
      rewrite IH by lia. rewrite set_add_elem, (above_inv x (parent_of parent)). tauto.
    + split; [by left | by intros [|[? _]]].
Qed.

(** The length of [parent] is fuel enough: more changes nothing. *)
Lemma add_parents_fuel fuel :
  ∀ fuel' parent folders,
    (String.length parent ≤ fuel)%nat → (String.length parent ≤ fuel')%nat →
    add_parents fuel parent folders = add_parents fuel' parent folders.
Proof.
  induction fuel as [|fuel IH]; intros fuel' parent folders Hf Hf'.
  - destruct parent; [|simpl in Hf; lia]. by destruct fuel'.
  - destruct fuel' as [|fuel'].
    + destruct parent; [done | simpl in Hf'; lia].
    + cbn [add_parents]. destruct (includes_char "/" parent) eqn:Hin; [|done].
      pose proof (parent_shorter parent Hin). apply IH; lia.
Qed.

Lemma add_parents_NoDup fuel :
  ∀ parent folders, NoDup folders → NoDup (add_parents fuel parent folders).
Proof.
  induction fuel as [|fuel IH]; intros parent folders Hnd; [done|].
  cbn [add_parents]. destruct (includes_char "/" parent); [|done].
  by apply IH, set_add_NoDup.
Qed.

Lemma add_file_elem x folders folderPath :
  x ∈ add_file folders folderPath
  ↔ x ∈ folders ∨ ∃ p, folderPath = Some p ∧ p ≠ "" ∧ above x p.
Proof.
  destruct folderPath as [p|]; simpl; [|by split; [left | intros [|(? & ? & _)]]].
  destruct (String.eqb_spec p "") as [->|Hne]; simpl.
  - split; [by left | by intros [|(? & [= <-] & ? & _)]].
  - rewrite add_parents_elem by done. rewrite set_add_elem. split.
    + intros [[->|Hin]|Hup].
      * right. exists p. split; [done|]. split; [done | apply above_self].
      * by left.
      * right. exists p. split; [done|]. split; [done|]. apply above_inv. by right.
    + intros [Hin|(q & [= <-] & _ & Hup)]; [by left; right|].
      apply above_inv in Hup as [->|Hup]; [by left; left | by right].
Qed.

Lemma add_file_NoDup folders folderPath : NoDup folders → NoDup (add_file folders folderPath).
Proof.
  intros Hnd. destruct folderPath as [p|]; simpl; [|done].
  destruct (negb _); [|done]. by apply add_parents_NoDup, set_add_NoDup.
Qed.

(** The set built from the files: the root and, for every file with a
    folder path, the folders from that path upwards. *)
Lemma folder_set_elem x files :
  x ∈ folder_set files ↔ x = "" ∨ ∃ p, Some p ∈ files ∧ p ≠ "" ∧ above x p.
Proof.
  unfold folder_set.
  assert (Hgen : ∀ acc, x ∈ fold_left add_file files acc
                        ↔ x ∈ acc ∨ ∃ p, Some p ∈ files ∧ p ≠ "" ∧ above x p).
  { induction files as [|file rest IH]; intros acc; simpl.
    - split; [by left|]. intros [|(p & Hp & _)]; [done|]. by apply elem_of_nil in Hp.
    - rewrite IH, add_file_elem. split.
      + intros [[Hacc|(p & -> & Hne & Hup)]|(p & Hp & Hne & Hup)].
        * by left.
        * right. exists p. split; [by left | done].
        * right. exists p. split; [by right | done].
      + intros [Hacc|(p & [<-|Hp]%elem_of_cons & Hne & Hup)].
        * by left; left.
        * left. right. by exists p.
        * right. by exists p. }
  rewrite Hgen, list_elem_of_singleton. done.
Qed.

Lemma folder_set_NoDup files : NoDup (folder_set files).
Proof.
  unfold folder_set.
  assert (Hgen : ∀ acc, NoDup acc → NoDup (fold_left add_file files acc)).
  { induction files as [|file rest IH]; intros acc Hnd; [done|].
    simpl. by apply IH, add_file_NoDup. }
  apply Hgen, NoDup_singleton.
Qed.

(** Going up from a folder keeps one above. *)
Lemma above_parent f : ∀ p, above f p → includes_char "/" f = true → above (parent_of f) p.
Proof.
  intros p Hup Hin. induction Hup as [|p Hp Hup IH].
  - apply above_step; [done | apply above_self].
  - by apply above_step.
Qed.

Section Sorting.
Variable sort : list string → list string.
Hypothesis sort_permutes : ∀ l, sort l ≡ₚ l.

(** X20: the folders offered are exactly the vault root [""] and, for
    every loaded file that has a folder path, that path and every
    folder reached from it by cutting at the last [/]; files without a
    parent or with an empty folder path add nothing. *)
Theorem getAllFolders_lists_root_and_ancestors files f :
  f ∈ getAllFolders sort files
  ↔ f = "" ∨ ∃ p, Some p ∈ files ∧ p ≠ "" ∧ above f p.
Proof. unfold getAllFolders. rewrite sort_permutes. apply folder_set_elem. Qed.

(** X21: the folders offered hold no folder twice, and with every folder
    that has a [/] in its path they hold the folder above it. *)
Theorem getAllFolders_closed_without_duplicates files :
  NoDup (getAllFolders sort files)
  ∧ ∀ f, f ∈ getAllFolders sort files → includes_char "/" f = true →
         parent_of f ∈ getAllFolders sort files.
Proof.
  unfold getAllFolders. split.
  - rewrite sort_permutes. apply folder_set_NoDup.
  - intros f. rewrite !sort_permutes, !folder_set_elem.
    intros [->|(p & Hp & Hne & Hup)] Hin; [done|].
    right. exists p. split; [done|]. split; [done|]. by apply above_parent.
Qed.

End Sorting.

Lemma sample_sort_permutes l : MoreSamples.sort l ≡ₚ l.
Proof. apply merge_sort_Permutation. Qed.

Lemma getAllFolders_lists_root_and_ancestors_witness :
  getAllFolders MoreSamples.sort MoreSamples.files
  = [""; "archive"; "archive/old"; "notes"; "notes/daily"; "notes/daily/2024"]
  ∧ "notes/daily" ∈ getAllFolders MoreSamples.sort MoreSamples.files.
Proof.
  split; [reflexivity|].
  apply (getAllFolders_lists_root_and_ancestors MoreSamples.sort sample_sort_permutes).
  right. exists "notes/daily/2024". split; [by left|]. split; [discriminate|].
  apply above_step; [reflexivity | apply above_self].
Defined.

Lemma getAllFolders_closed_without_duplicates_witness :
  "archive/old" ∈ getAllFolders MoreSamples.sort MoreSamples.files
  ∧ "archive" ∈ getAllFolders MoreSamples.sort MoreSamples.files.
Proof.
  assert (Hin : "archive/old" ∈ getAllFolders MoreSamples.sort MoreSamples.files)
    by (apply (bool_decide_unpack _); vm_compute; exact I).
  split; [exact Hin|].
  destruct (getAllFolders_closed_without_duplicates MoreSamples.sort sample_sort_permutes
              MoreSamples.files) as [_ Hclosed].
  apply (Hclosed "archive/old" Hin). reflexivity.
Defined.

End FolderSuggestMore.
